(** * sqlite-online: the query helpers, the worker protocol and the remote load

    A shallow embedding of

    - [src/lib/sqlite.ts]: table names, schema introspection, result-set
      mapping and CSV export on top of a sql.js [Database];
    - the worker of [src/App.tsx] (second document): [self.onmessage], the
      protocol handler that owns the [Sqlite] instance;
    - the [App] component of [src/App.tsx] (first document): [fetchDatabase]
      and [handleRetryWithProxy].

    JavaScript objects used as dictionaries are the [gmap string _] of
    their own properties, with the one name, [__proto__], that an assignment
    does not turn into an own property; arrays are lists; exceptions are an
    explicit outcome; mutable state (the database,
    the console, the posted messages, the React state) is threaded through a
    small state-and-exception monad. *)

From Stdlib Require Import ZArith List String Ascii Floats.
From stdpp Require Import base option list strings gmap pretty.

Set Default Proof Using "Type".
Open Scope string_scope.

(** ** JavaScript values, exceptions and effects *)

Module Js.

(** sql.js cells are [number | string | Uint8Array | null]; reading past the
    end of an array or a missing property gives [undefined]; reading
    [__proto__] off an object that has no own property of that name gives
    the object [Object.prototype]. *)
Inductive value : Type :=
| Undefined
| Null
| Number (n : float)
| Str (s : string)
| Bytes (b : list N)
| ObjectPrototype.

(** Modelled from the spec: [CustomQueryError], which the worker imports
    from [./sqlite], outside the sources at hand ("CustomQueryError wrapping
    the underlying engine's message, distinguished from all other failure
    kinds"): a subclass of [Error] that carries the message it is built
    from.

    What can be thrown is then an [Error] instance (its [message], and
    whether it is an instance of [CustomQueryError]), or anything else. *)
Inductive thrown : Type :=
| Error (message : string) (isCustomQueryError : bool)
| NonError (v : value).

Inductive outcome (A : Type) : Type :=
| Ok (a : A)
| Throw (e : thrown).
Arguments Ok {A} a.
Arguments Throw {A} e.

(** Computations over a mutable store [S] that may throw. *)
Definition M (S A : Type) : Type := S -> S * outcome A.

Definition ret {S A} (a : A) : M S A := fun s => (s, Ok a).

Definition throw {S A} (e : thrown) : M S A := fun s => (s, Throw e).

Definition bind {S A B} (m : M S A) (k : A -> M S B) : M S B :=
  fun s =>
    match m s with
    | (s', Ok a) => k a s'
    | (s', Throw e) => (s', Throw e)
    end.

(** [try { m } catch (error) { h error }] *)
Definition try_catch {S A} (m : M S A) (h : thrown -> M S A) : M S A :=
  fun s =>
    match m s with
    | (s', Ok a) => (s', Ok a)
    | (s', Throw e) => h e s'
    end.

(** [try { m } finally { f }] with a [finally] block that does not throw. *)
Definition try_finally {S A} (m : M S A) (f : S -> S) : M S A :=
  fun s => let '(s', r) := m s in (f s', r).

Definition modify {S} (f : S -> S) : M S unit := fun s => (f s, Ok tt).

Definition gets {S A} (f : S -> A) : M S A := fun s => (s, Ok (f s)).

(** [l.forEach(f)] *)
Fixpoint forEach {S A} (f : A -> M S unit) (l : list A) : M S unit :=
  match l with
  | [] => ret tt
  | x :: l' => bind (f x) (fun _ => forEach f l')
  end.

(** [l.reduce((acc, x, index) => f acc x index, init)], from index [i]. *)
Fixpoint reduce_from {A B} (f : B -> A -> nat -> B) (i : nat) (l : list A) (acc : B) : B :=
  match l with
  | [] => acc
  | x :: l' => reduce_from f (S i) l' (f acc x i)
  end.

Definition reduce {A B} (f : B -> A -> nat -> B) (l : list A) (init : B) : B :=
  reduce_from f 0 l init.

(** [a[i]] on an array of values. *)
Definition index (a : list value) (i : nat) : value := default Undefined (a !! i).

(** An object created by the literal [{}] and used as a dictionary is the
    finite map of its own properties; its prototype is [Object.prototype].

    [o[k] = v]: the assignment creates or overwrites the own property [k],
    except for [k = "__proto__"], which goes to the setter that
    [Object.prototype] has under that name and creates no own property.  The
    setter ignores a number, a string and [undefined]; given an object (the
    entry of a schema) it makes it the prototype of [o], which adds no own
    property either.  A [null] or a blob cell under a column named
    [__proto__] changes the prototype of the row to [null] or to a typed
    array, after which the row is no plain dictionary: that case is not
    modelled, and what is proved of rows in general is proved for column
    names other than [__proto__]. *)
Definition assign {V} (o : gmap string V) (k : string) (v : V) : gmap string V :=
  if bool_decide (k = "__proto__") then o else <[ k := v ]> o.

(** [o[k]] on such an object holding cells, its prototype being
    [Object.prototype]: the own property; else, for [k = "__proto__"], the
    prototype; else [undefined] (the code reads a row at its column names
    only, and has written every one of them but [__proto__]). *)
Definition prop (o : gmap string value) (k : string) : value :=
  match o !! k with
  | Some v => v
  | None => if bool_decide (k = "__proto__") then ObjectPrototype else Undefined
  end.

(** The double quote and the line feed. *)
Definition dquote : string := String (ascii_of_nat 34) "".
Definition newline : string := String (ascii_of_nat 10) "".

(** [Number.prototype.toString] is left to the host. *)
Class NumberToString := number_to_string : float -> string.

(** String conversion, as a template literal or a property key performs it. *)
Definition to_string `{NumberToString} (v : value) : string :=
  match v with
  | Undefined => "undefined"
  | Null => "null"
  | Number n => number_to_string n
  | Str s => s
  | Bytes b => String.concat "," (map pretty b)
  | ObjectPrototype => "[object Object]"
  end.

(** [v === 1] *)
Definition strict_eq_one (v : value) : bool :=
  match v with
  | Number n => PrimFloat.eqb n 1%float
  | _ => false
  end.

End Js.

Notation "'let*' x ':=' m 'in' k" := (Js.bind m (fun x => k))
  (at level 10, x name, m at level 100, k at level 200).
Notation "'let*' ' p ':=' m 'in' k" := (Js.bind m (fun p => k))
  (at level 10, p pattern, m at level 100, k at level 200).

(** ** src/lib/sqlite.ts *)

Module SqliteTs.

Import Js.

(** sql.js [QueryExecResult]. *)
Record QueryExecResult : Type := {
  columns : list string;
  values : list (list value)
}.

(** [TableRow]: an object from column name to cell. *)
Abbreviation TableRow := (gmap string value).

Section Pure.
Context `{NumberToString}.

(** One entry of the schema object built by [getTableSchema]. *)
Record ColumnInfo : Type := {
  type : value;
  isPrimaryKey : bool;
  isForeignKey : bool
}.

(** The TypeError of [tableInfoResult[0].values] on an empty result. *)
Definition TypeError_values : thrown :=
  Error "Cannot read properties of undefined (reading 'values')" false.

(** The reducer over the rows of [PRAGMA table_info]. *)
Definition addColumn (acc : gmap string ColumnInfo) (row : list value) :
    gmap string ColumnInfo :=
  assign acc (to_string (index row 1))
    {| type := index row 2;
       isPrimaryKey := strict_eq_one (index row 5);
       isForeignKey := false |}.

(** The [forEach] body over the rows of [PRAGMA foreign_key_list]: the flag
    is raised on the own entry of that name; with no own entry of that name,
    the own entries stay as they are (the name is then read off the
    prototype; the columns SQLite lists here are columns of the table, which
    have their own entry unless named [__proto__]). *)
Definition markForeignKey (tableSchema : gmap string ColumnInfo) (row : list value) :
    gmap string ColumnInfo :=
  let columnName := to_string (index row 3) in
  match tableSchema !! columnName with
  | Some c =>
      <[ columnName := {| type := type c; isPrimaryKey := isPrimaryKey c;
                          isForeignKey := true |} ]> tableSchema
  | None => tableSchema
  end.

(** [mapQueryResults] *)
Definition mapRow (columns : list string) (row : list value) : TableRow :=
  reduce (fun acc col i => assign acc col (index row i)) columns ∅.

Definition mapQueryResults (result : list QueryExecResult) : list TableRow * list string :=
  match result with
  | r :: _ => (map (mapRow (columns r)) (values r), columns r)
  | [] => ([], [])
  end.

(** [arrayToCSV] *)
Definition csvField (row : TableRow) (col : string) : string :=
  dquote +:+ to_string (prop row col) +:+ dquote.

Definition csvRow (columns : list string) (row : TableRow) : string :=
  String.concat "," (map (csvField row) columns).

Definition arrayToCSV (columns : list string) (rows : list TableRow) : string :=
  let header := String.concat "," columns in
  let csvRows := map (csvRow columns) rows in
  String.concat newline (header :: csvRows).

End Pure.

(** The collaborators of the module: the sql.js [Database] (an opaque
    state; [exec] may change it and may throw), file-saver's [saveAs] (which
    may throw), and the host's number printing. *)
Class Host : Type := {
  Database : Type;
  db_exec : Database -> string -> Database * outcome (list QueryExecResult);
  saveAs_throws : string -> string -> option thrown;
  host_number_to_string :: NumberToString
}.

Section WithHost.
Context `{Host}.

(** The store: the database, the statements handed to [database.exec], the
    lines written with [console.error], and the files handed to [saveAs]
    (content, file name); the three logs have the most recent entry first. *)
Record World : Type := {
  database : Database;
  executed : list string;
  console : list (string * thrown);
  saved : list (string * string)
}.

(** [database.exec(sql)] *)
Definition exec (sql : string) : M World (list QueryExecResult) :=
  fun w =>
    let '(d, r) := db_exec (database w) sql in
    ({| database := d; executed := sql :: executed w;
        console := console w; saved := saved w |}, r).

(** [console.error(msg, error)] *)
Definition console_error (msg : string) (error : thrown) : M World unit :=
  modify (fun w => {| database := database w; executed := executed w;
                      console := (msg, error) :: console w;
                      saved := saved w |}).

(** [saveAs(new Blob([content], ...), name)] *)
Definition saveAs (content name : string) : M World unit :=
  fun w =>
    match saveAs_throws content name with
    | Some e => (w, Throw e)
    | None => ({| database := database w; executed := executed w;
                  console := console w;
                  saved := (content, name) :: saved w |}, Ok tt)
    end.

Definition tableNamesQuery : string :=
  "SELECT name FROM sqlite_master WHERE type='table';".

(** [getTableNames]: [result[0]?.values.map((row) => row[0]) || []], and
    [[]] when anything throws. *)
Definition getTableNames : M World (list value) :=
  try_catch
    (let* result := exec tableNamesQuery in
     ret (match result !! 0%nat with
          | Some r => map (fun row => index row 0) (values r)
          | None => []
          end))
    (fun error => let* _ := console_error "Failed to get table names:" error in ret []).

Definition tableInfoQuery (tableName : string) : string :=
  "PRAGMA table_info(" +:+ dquote +:+ tableName +:+ dquote +:+ ")".

Definition foreignKeyListQuery (tableName : string) : string :=
  "PRAGMA foreign_key_list(" +:+ dquote +:+ tableName +:+ dquote +:+ ")".

Definition getTableSchema (tableName : string) : M World (gmap string ColumnInfo) :=
  try_catch
    (let* tableInfoResult := exec (tableInfoQuery tableName) in
     match tableInfoResult !! 0%nat with
     | None => throw TypeError_values
     | Some info =>
         let tableSchema := fold_left addColumn (values info) ∅ in
         let* foreignKeyInfoResult := exec (foreignKeyListQuery tableName) in
         ret (match foreignKeyInfoResult with
              | fk :: _ => fold_left markForeignKey (values fk) tableSchema
              | [] => tableSchema
              end)
     end)
    (fun error =>
       let* _ := console_error
                   ("Failed to get schema for table " +:+ dquote +:+ tableName +:+ dquote +:+ ":")
                   error in
       throw error).

(** The body shared by the two exporters' [try] blocks. *)
Definition selectAll (tableName : value) : string :=
  "SELECT * FROM " +:+ to_string tableName.

Definition exportBody (tableName : value) : M World unit :=
  let* result := exec (selectAll tableName) in
  if bool_decide (length result = 0%nat) then
    throw (Error ("Table " +:+ to_string tableName +:+ " is empty or does not exist.") false)
  else
    let '(data, columns) := mapQueryResults result in
    let csvContent := arrayToCSV columns data in
    saveAs csvContent (to_string tableName +:+ ".csv").

Definition exportFailed (tableName : value) : string :=
  "Failed to export table " +:+ dquote +:+ to_string tableName +:+ dquote +:+ " as CSV:".

(** [tableNames[tableIndex]] *)
Definition nameAt (tableNames : list value) (tableIndex : Z) : value :=
  if (0 <=? tableIndex)%Z then index tableNames (Z.to_nat tableIndex) else Undefined.

Definition exportTableAsCSV (tableIndex : Z) : M World unit :=
  let* tableNames := getTableNames in
  let tableName := nameAt tableNames tableIndex in
  try_catch (exportBody tableName)
    (fun error => let* _ := console_error (exportFailed tableName) error in throw error).

(** The callback that [exportAllTablesAsCSV] hands to [forEach]: the
    [try] block, and a [catch] block that logs and does not throw. *)
Definition exportEach (tableName : value) : M World unit :=
  try_catch (exportBody tableName)
    (fun error => console_error (exportFailed tableName) error).

Definition exportAllTablesAsCSV : M World unit :=
  let* tableNames := getTableNames in
  forEach exportEach tableNames.

End WithHost.

End SqliteTs.

(** ** The worker of src/App.tsx: [self.onmessage] *)

(** The [Sqlite] class the worker imports from [./sqlite] is outside the
    sources at hand: its methods are taken as parameters.  A method receives
    the instance and returns the instance as the call leaves it, with the
    value returned or the value thrown. *)
Module Sqlite.

Import Js.

Class Methods : Type := {
  t : Type;
  TableSchema : Type;
  IndexSchema : Type;
  Filters : Type;
  Sorters : Type;
  create : outcome t;
  open : list N -> outcome t;
  tablesSchema : t -> TableSchema;
  indexesSchema : t -> IndexSchema;
  firstTable : t -> value;
  getTableData :
    t -> string -> float -> float -> Filters -> Sorters ->
    t * outcome (list (gmap string value) * float);
  exec : t -> string -> t * outcome (list (gmap string value) * bool);
  download : t -> t * outcome (list N);
  update : t -> string -> list string -> list value -> value -> t * outcome unit;
  delete : t -> string -> value -> t * outcome unit;
  insert : t -> string -> list string -> list value -> t * outcome unit;
  getTableAsCsv : t -> string -> t * outcome string;
  getCurrentDataAsCsv :
    t -> string -> float -> float -> Filters -> Sorters -> t * outcome string
}.

End Sqlite.

Module Worker.

Import Js.

Section WithSqlite.
Context `{Sqlite.Methods}.

(** [WorkerEvent]: the [action] with its [payload]; [Unknown] stands for any
    action string the [switch] has no case for. *)
Inductive WorkerEvent : Type :=
| Init
| OpenFile (file : list N)
| Refresh (currentTable : string) (limit offset : float)
    (filters : Sqlite.Filters) (sorters : Sqlite.Sorters)
| Exec (query : string) (currentTable : string) (limit offset : float)
    (filters : Sqlite.Filters) (sorters : Sqlite.Sorters)
| GetTableData (currentTable : string) (limit offset : float)
    (filters : Sqlite.Filters) (sorters : Sqlite.Sorters)
| Download
| Update (table : string) (columns : list string) (values : list value) (primaryValue : value)
| Delete (table : string) (primaryValue : value)
| Insert (table : string) (columns : list string) (values : list value)
| Export (table : string) (filters : Sqlite.Filters) (sorters : Sqlite.Sorters)
    (limit offset : float) (exportType : string)
| Unknown (action : string).

(** The messages the worker posts to the main thread. *)
Inductive Response : Type :=
| initComplete (tableSchema : Sqlite.TableSchema) (indexSchema : Sqlite.IndexSchema)
    (currentTable : value)
| queryError (message : string) (isCustomQueryError : bool)
| queryComplete (results : list (gmap string value)) (maxSize : float)
| updateInstance (tableSchema : Sqlite.TableSchema) (indexSchema : Sqlite.IndexSchema)
| customQueryComplete (results : list (gmap string value))
| downloadComplete (bytes : list N)
| updateComplete (type : string)
| insertComplete
| exportComplete (results : string).

(** The worker's store: the global [instance], the messages posted with
    [self.postMessage] and the lines of [console.warn] (text, action), most
    recent first. *)
Record Store : Type := {
  instance : option Sqlite.t;
  posted : list Response;
  warned : list (string * string)
}.

Definition postMessage (r : Response) : M Store unit :=
  modify (fun s => {| instance := instance s; posted := r :: posted s; warned := warned s |}).

Definition console_warn (msg action : string) : M Store unit :=
  modify (fun s => {| instance := instance s; posted := posted s;
                      warned := (msg, action) :: warned s |}).

(** [instance = i] *)
Definition setInstance (i : Sqlite.t) : M Store unit :=
  modify (fun s => {| instance := Some i; posted := posted s; warned := warned s |}).

(** [await Sqlite.create()], [await Sqlite.open(bytes)] *)
Definition await {A} (r : outcome A) : M Store A := fun s => (s, r).

Definition TypeError_null : thrown :=
  Error "Cannot read properties of null" false.

(** [instance.method(args)]: the call acts on the object the global refers
    to. *)
Definition call {A} (method : Sqlite.t -> Sqlite.t * outcome A) : M Store A :=
  fun s =>
    match instance s with
    | Some i =>
        let '(i', r) := method i in
        ({| instance := Some i'; posted := posted s; warned := warned s |}, r)
    | None => (s, Throw TypeError_null)
    end.

(** [instance.field] *)
Definition read {A} (field : Sqlite.t -> A) : M Store A :=
  fun s =>
    match instance s with
    | Some i => (s, Ok (field i))
    | None => (s, Throw TypeError_null)
    end.

Definition postInitComplete : M Store unit :=
  let* tableSchema := read Sqlite.tablesSchema in
  let* indexSchema := read Sqlite.indexesSchema in
  let* currentTable := read Sqlite.firstTable in
  postMessage (initComplete tableSchema indexSchema currentTable).

Definition notInitialized : Response :=
  queryError "Database is not initialized" false.

(** The [catch] of the [exec] case. *)
Definition execCatch (error : thrown) : M Store unit :=
  match error with
  | Error message _ => throw (Error message true)
  | NonError _ => ret tt
  end.

(** The [exec] case. *)
Definition execCase (query currentTable : string) (limit offset : float)
    (filters : Sqlite.Filters) (sorters : Sqlite.Sorters) : M Store unit :=
  try_catch
    (let* '(results, doTablesChanged) := call (fun i => Sqlite.exec i query) in
     if (doTablesChanged : bool) then
       let* tableSchema := read Sqlite.tablesSchema in
       let* indexSchema := read Sqlite.indexesSchema in
       postMessage (updateInstance tableSchema indexSchema)
     else if (0 <? length results)%nat then
       postMessage (customQueryComplete results)
     else
       let* '(results, maxSize) :=
         call (fun i => Sqlite.getTableData i currentTable limit offset filters sorters) in
       postMessage (queryComplete results maxSize))
    execCatch.

(** The [switch (action)].  [init] has no case of its own: the handler
    returns before the [switch] on it, and the [switch] would send it to
    [default]. *)
Definition switch (ev : WorkerEvent) : M Store unit :=
  match ev with
  | OpenFile file =>
      let* i := await (Sqlite.open file) in
      let* _ := setInstance i in
      postInitComplete
  | Refresh currentTable limit offset filters sorters =>
      let* '(results, maxSize) :=
        call (fun i => Sqlite.getTableData i currentTable limit offset filters sorters) in
      postMessage (queryComplete results maxSize)
  | Exec query currentTable limit offset filters sorters =>
      execCase query currentTable limit offset filters sorters
  | GetTableData currentTable limit offset filters sorters =>
      let* '(results, maxSize) :=
        call (fun i => Sqlite.getTableData i currentTable limit offset filters sorters) in
      postMessage (queryComplete results maxSize)
  | Download =>
      let* bytes := call Sqlite.download in
      postMessage (downloadComplete bytes)
  | Update table columns values primaryValue =>
      let* _ := call (fun i => Sqlite.update i table columns values primaryValue) in
      postMessage (updateComplete "updated")
  | Delete table primaryValue =>
      let* _ := call (fun i => Sqlite.delete i table primaryValue) in
      postMessage (updateComplete "deleted")
  | Insert table columns values =>
      let* _ := call (fun i => Sqlite.insert i table columns values) in
      postMessage insertComplete
  | Export table filters sorters limit offset exportType =>
      let* results :=
        (if bool_decide (exportType = "table") then
           call (fun i => Sqlite.getTableAsCsv i table)
         else
           call (fun i => Sqlite.getCurrentDataAsCsv i table limit offset filters sorters)) in
      postMessage (exportComplete results)
  | Init => console_warn "Unknown worker action:" "init"
  | Unknown action => console_warn "Unknown worker action:" action
  end.

(** The outer [catch]. *)
Definition onError (error : thrown) : M Store unit :=
  match error with
  | Error message isCustomQueryError =>
      postMessage (queryError message isCustomQueryError)
  | NonError _ => postMessage (queryError "Unknown error" false)
  end.

(** [self.onmessage].  A [Throw] outcome is an exception that leaves the
    handler (an unhandled rejection). *)
Definition onmessage (ev : WorkerEvent) : M Store unit :=
  match ev with
  | Init =>
      let* i := await Sqlite.create in
      let* _ := setInstance i in
      postInitComplete
  | _ =>
      let* current := gets instance in
      match current with
      | None => postMessage notInitialized
      | Some _ => try_catch (switch ev) onError
      end
  end.

(** The commands of the [switch] other than [exec]. *)
Definition plainCommand (ev : WorkerEvent) : bool :=
  match ev with
  | Init | Exec _ _ _ _ _ _ | Unknown _ => false
  | _ => true
  end.

(** The messages one event adds to the outbox, oldest first. *)
Definition responses (ev : WorkerEvent) (s : Store) : list Response :=
  let s' := fst (onmessage ev s) in
  rev (take (length (posted s') - length (posted s)) (posted s')).

End WithSqlite.

(** Unfolds one run of the handler down to the calls on the instance. *)
Ltac run_handler :=
  unfold onmessage, switch, execCase, execCatch, onError, postInitComplete,
    try_catch, bind, gets, call, read, await, postMessage, setInstance,
    console_warn, modify, ret, throw;
  cbn [instance posted warned fst snd].

End Worker.

(** ** The [App] component of src/App.tsx: the remote load *)

Module App.

Import Js.

(** What [fetch] resolves to: [response.ok] and [await response.blob()]. *)
Record FetchResponse (Blob : Type) : Type := {
  ok : bool;
  blob : outcome Blob
}.
Arguments ok {Blob} _.
Arguments blob {Blob} _.

(** The collaborators of the component: the network behind [fetch] and the
    store's [loadDatabase] (an opaque state both may change, and both may
    throw), [encodeURIComponent], and the host's number printing. *)
Class Browser : Type := {
  Net : Type;
  Blob : Type;
  encodeURIComponent : string -> string;
  net_fetch : Net -> string -> Net * outcome (FetchResponse Blob);
  net_loadDatabase : Net -> Blob -> Net * outcome unit;
  browser_number_to_string :: NumberToString
}.

Section WithBrowser.
Context `{Browser}.

(** The component's React state, with the network and the URLs handed to
    [fetch], most recent first. *)
Record State : Type := {
  net : Net;
  fetchError : option string;
  showDialog : bool;
  urlToFetch : option string;
  isFetching : bool;
  requests : list string
}.

Definition setFetchError (v : option string) : M State unit :=
  modify (fun s => {| net := net s; fetchError := v; showDialog := showDialog s;
                      urlToFetch := urlToFetch s; isFetching := isFetching s;
                      requests := requests s |}).

Definition setShowDialog (v : bool) : M State unit :=
  modify (fun s => {| net := net s; fetchError := fetchError s; showDialog := v;
                      urlToFetch := urlToFetch s; isFetching := isFetching s;
                      requests := requests s |}).

Definition setUrlToFetch (v : option string) : M State unit :=
  modify (fun s => {| net := net s; fetchError := fetchError s; showDialog := showDialog s;
                      urlToFetch := v; isFetching := isFetching s;
                      requests := requests s |}).

Definition withIsFetching (v : bool) (s : State) : State :=
  {| net := net s; fetchError := fetchError s; showDialog := showDialog s;
     urlToFetch := urlToFetch s; isFetching := v; requests := requests s |}.

Definition setIsFetching (v : bool) : M State unit := modify (withIsFetching v).

(** [await fetch(fetchUrl)] *)
Definition fetch (fetchUrl : string) : M State (FetchResponse Blob) :=
  fun s =>
    let '(n, r) := net_fetch (net s) fetchUrl in
    ({| net := n; fetchError := fetchError s; showDialog := showDialog s;
        urlToFetch := urlToFetch s; isFetching := isFetching s;
        requests := fetchUrl :: requests s |}, r).

(** [await loadDatabase(new File([blob], "database.sqlite"))] *)
Definition loadDatabase (b : Blob) : M State unit :=
  fun s =>
    let '(n, r) := net_loadDatabase (net s) b in
    ({| net := n; fetchError := fetchError s; showDialog := showDialog s;
        urlToFetch := urlToFetch s; isFetching := isFetching s;
        requests := requests s |}, r).

Definition await {A} (r : outcome A) : M State A := fun s => (s, r).

Definition proxied (url : string) : string :=
  "https://corsproxy.io/?" +:+ encodeURIComponent url.

(** The [try] block of [fetchDatabase]. *)
Definition attempt (url : string) (useProxy : bool) : M State unit :=
  let* _ := setIsFetching true in
  let fetchUrl := if useProxy then proxied url else url in
  let* response := fetch fetchUrl in
  if negb (ok response) then
    throw (Error "URL not found or invalid" false)
  else
    let* b := await (blob response) in
    let* _ := loadDatabase b in
    setFetchError None.

(** [error instanceof Error ? error.message : String(error)] *)
Definition describe (error : thrown) : string :=
  match error with
  | Error message _ => message
  | NonError v => to_string v
  end.

(** The [catch] block of [fetchDatabase]. *)
Definition onFetchFailure (url : string) (useProxy : bool) (error : thrown) : M State unit :=
  if negb useProxy then
    let* _ := setUrlToFetch (Some url) in
    setShowDialog true
  else
    setFetchError (Some ("Error whilefetching, " +:+ describe error)).

Definition fetchDatabase (url : string) (useProxy : bool) : M State unit :=
  try_finally
    (try_catch (attempt url useProxy) (onFetchFailure url useProxy))
    (withIsFetching false).

(** [if (urlToFetch)]: neither [null] nor the empty string. *)
Definition truthy (u : option string) : option string :=
  match u with
  | Some url => if bool_decide (url = "") then None else Some url
  | None => None
  end.

(** [handleRetryWithProxy], the dialog's confirm action.  The proxied
    [fetchDatabase] never writes [showDialog], so closing the dialog after
    it or while it is pending leaves the same state. *)
Definition handleRetryWithProxy : M State unit :=
  let* u := gets urlToFetch in
  match truthy u with
  | Some url =>
      let* _ := fetchDatabase url true in
      setShowDialog false
  | None => ret tt
  end.

End WithBrowser.

(** Unfolds one run of [fetchDatabase] down to the calls on the network. *)
Ltac run_app :=
  unfold fetchDatabase, try_finally, try_catch, attempt, onFetchFailure, bind,
    setIsFetching, setFetchError, setShowDialog, setUrlToFetch, withIsFetching,
    fetch, loadDatabase, await, modify, throw, ret;
  cbn [net fetchError showDialog urlToFetch isFetching requests negb].

End App.

(** ** Scripted collaborators

    Small concrete hosts on which the definitions above run. *)

Module Scripted.

Import Js.

(** Numbers print as a fixed placeholder: the examples below use text
    cells. *)
Definition printNumber : NumberToString := fun _ => "<number>".

(** A database that answers each statement from a fixed table of results
    and throws an [Error] for any other statement. *)
Definition Answers : Type := list (string * list SqliteTs.QueryExecResult).

Fixpoint answer (db : Answers) (sql : string) : outcome (list SqliteTs.QueryExecResult) :=
  match db with
  | [] => Throw (Error ("no such table: " +:+ sql) false)
  | (q, r) :: db' => if bool_decide (q = sql) then Ok r else answer db' sql
  end.

Definition host : SqliteTs.Host := {|
  SqliteTs.Database := Answers;
  SqliteTs.db_exec := fun db sql => (db, answer db sql);
  SqliteTs.saveAs_throws := fun _ _ => None;
  SqliteTs.host_number_to_string := printNumber
|}.

(** The world on a scripted database, with its three logs, and the world
    in which nothing has run yet. *)
Definition worldWith (db : Answers) (executed : list string)
    (console : list (string * thrown)) (saved : list (string * string)) :
    @SqliteTs.World host :=
  @SqliteTs.Build_World host db executed console saved.

Definition world (db : Answers) : @SqliteTs.World host := worldWith db [] [] [].

(** Rows for the scripted [Sqlite] class. *)
Definition oneRow : list (gmap string value) := [ {[ "n" := Str "1" ]} ].

Definition pageRows : list (gmap string value) :=
  [ {[ "id" := Str "1" ]}; {[ "id" := Str "2" ]} ].

(** A [Sqlite] class scripted by statement and by table name: one statement
    changes the schema, one returns a row, one returns nothing, one makes
    the engine throw a value that is not an [Error]; so does reading the
    table [crash].  The instance counts the calls made on it. *)
Definition scriptedExec (query : string) : outcome (list (gmap string value) * bool) :=
  if bool_decide (query = "CREATE TABLE u (id)") then Ok ([], true)
  else if bool_decide (query = "SELECT 1 AS n") then Ok (oneRow, false)
  else if bool_decide (query = "DELETE FROM t") then Ok ([], false)
  else if bool_decide (query = "SELECT crash()") then Throw (NonError (Str "boom"))
  else Throw (Error "syntax error" false).

Definition scriptedTableData (table : string) : outcome (list (gmap string value) * float) :=
  if bool_decide (table = "t") then Ok (pageRows, 2%float)
  else if bool_decide (table = "crash") then Throw (NonError (Str "boom"))
  else Throw (Error ("no such table: " +:+ table) false).

Definition sqlite (created : outcome nat) : Sqlite.Methods := {|
  Sqlite.t := nat;
  Sqlite.TableSchema := nat;
  Sqlite.IndexSchema := nat;
  Sqlite.Filters := unit;
  Sqlite.Sorters := unit;
  Sqlite.create := created;
  Sqlite.open := fun bytes => Ok (length bytes);
  Sqlite.tablesSchema := fun i => i;
  Sqlite.indexesSchema := fun i => i;
  Sqlite.firstTable := fun _ => Null;
  Sqlite.getTableData := fun i table _ _ _ _ => (S i, scriptedTableData table);
  Sqlite.exec := fun i query => (S i, scriptedExec query);
  Sqlite.download := fun i => (S i, Ok []);
  Sqlite.update := fun i _ _ _ _ => (S i, Ok tt);
  Sqlite.delete := fun i _ _ => (S i, Ok tt);
  Sqlite.insert := fun i _ _ _ => (S i, Ok tt);
  Sqlite.getTableAsCsv := fun i _ => (S i, Ok "");
  Sqlite.getCurrentDataAsCsv := fun i _ _ _ _ _ => (S i, Ok "")
|}.

(** The class whose [create] resolves, and the one whose [create]
    rejects. *)
Definition engine : Sqlite.Methods := sqlite (Ok 0%nat).

Definition engineMissing : Sqlite.Methods :=
  sqlite (Throw (Error "failed to load the engine" false)).

(** The worker's store on the scripted class, with nothing warned. *)
Definition handler (instance : option nat) (posted : list (@Worker.Response engine)) :
    @Worker.Store engine :=
  @Worker.Build_Store engine instance posted [].

(** A network scripted by URL: one file is served, one is answered with an
    HTTP failure ([response.ok] false), and any other [fetch], the relay's
    included, is rejected. *)
Definition dbUrl : string := "https://example.org/db.sqlite".

Definition missingUrl : string := "https://example.org/missing.sqlite".

Definition scriptedFetch (url : string) : outcome (App.FetchResponse unit) :=
  if bool_decide (url = dbUrl) then Ok {| App.ok := true; App.blob := Ok tt |}
  else if bool_decide (url = missingUrl) then Ok {| App.ok := false; App.blob := Ok tt |}
  else Throw (Error "Failed to fetch" false).

Definition browser : App.Browser := {|
  App.Net := unit;
  App.Blob := unit;
  App.encodeURIComponent := fun url => url;
  App.net_fetch := fun n url => (n, scriptedFetch url);
  App.net_loadDatabase := fun n _ => (n, Ok tt);
  App.browser_number_to_string := printNumber
|}.

(** The component's state on the scripted network. *)
Definition page (fetchError : option string) (showDialog : bool)
    (urlToFetch : option string) (isFetching : bool) (requests : list string) :
    @App.State browser :=
  @App.Build_State browser tt fetchError showDialog urlToFetch isFetching requests.

(** A result set whose two columns carry the same name. *)
Definition twoColumnsOneName : SqliteTs.QueryExecResult :=
  {| SqliteTs.columns := ["a"; "a"]; SqliteTs.values := [[Str "x"; Str "y"]] |}.

(** Two result sets for the table-name query. *)
Definition usersAndPosts : SqliteTs.QueryExecResult :=
  {| SqliteTs.columns := ["name"]; SqliteTs.values := [[Str "users"]; [Str "posts"]] |}.

Definition ignoredSet : SqliteTs.QueryExecResult :=
  {| SqliteTs.columns := ["name"]; SqliteTs.values := [[Str "ignored"]] |}.

(** A cell with a double quote inside, in a one-column row. *)
Definition quotedCell : value := Str ("x" +:+ dquote +:+ "y").

Definition quotedRow : gmap string value := {[ "a" := quotedCell ]}.

(** A database with one table [t] of two columns and two rows. *)
Definition tableT : SqliteTs.QueryExecResult :=
  {| SqliteTs.columns := ["id"; "name"];
     SqliteTs.values := [[Str "1"; Str "ann"]; [Str "2"; quotedCell]] |}.

Definition oneTable : Answers :=
  [ (SqliteTs.tableNamesQuery,
     [ {| SqliteTs.columns := ["name"]; SqliteTs.values := [[Str "t"]] |} ]);
    ("SELECT * FROM t", [tableT]) ].

(** A database with a table [posts(id PK, author -> users, body)]. *)
Definition postsInfo : SqliteTs.QueryExecResult :=
  {| SqliteTs.columns := ["cid"; "name"; "type"; "notnull"; "dflt_value"; "pk"];
     SqliteTs.values :=
       [ [Number 0; Str "id"; Str "INTEGER"; Number 0; Null; Number 1];
         [Number 1; Str "author"; Str "INTEGER"; Number 0; Null; Number 0];
         [Number 2; Str "body"; Str "TEXT"; Number 0; Null; Number 0] ] |}.

Definition postsForeignKeys : SqliteTs.QueryExecResult :=
  {| SqliteTs.columns := ["id"; "seq"; "table"; "from"; "to"; "on_update"; "on_delete"; "match"];
     SqliteTs.values :=
       [ [Number 0; Number 0; Str "users"; Str "author"; Str "id";
          Str "NO ACTION"; Str "NO ACTION"; Str "NONE"] ] |}.

Definition postsDatabase : Answers :=
  [ (SqliteTs.tableInfoQuery "posts", [postsInfo]);
    (SqliteTs.foreignKeyListQuery "posts", [postsForeignKeys]) ].

(** A database with two listed tables of which the first, [e], has no
    row: its [SELECT] answers with no result set. *)
Definition emptyAndT : Answers :=
  [ (SqliteTs.tableNamesQuery,
     [ {| SqliteTs.columns := ["name"]; SqliteTs.values := [[Str "e"]; [Str "t"]] |} ]);
    ("SELECT * FROM e", []);
    ("SELECT * FROM t", [tableT]) ].

Definition twoResultSets : Answers :=
  [ (SqliteTs.tableNamesQuery, [usersAndPosts; ignoredSet]) ].

End Scripted.

(** ** CSV reference formats *)

Module CsvFormat.

Import Js.

Section WithNumbers.
Context `{NumberToString}.

(** The field as the specification words it: wrapped in double quotes, with
    every embedded double quote doubled. *)
Fixpoint doubleQuotes (s : string) : string :=
  match s with
  | EmptyString => EmptyString
  | String c s' =>
      if Ascii.eqb c (ascii_of_nat 34) then String c (String c (doubleQuotes s'))
      else String c (doubleQuotes s')
  end.

Definition escapedField (v : value) : string :=
  dquote +:+ doubleQuotes (to_string v) +:+ dquote.

(** The field with the cell's text copied between the quotes unchanged, the
    line of a value tuple cut or padded to [width] cells, and the text of a
    whole result set: the column names joined by commas, then one line per
    tuple. *)
Definition verbatimField (v : value) : string :=
  dquote +:+ to_string v +:+ dquote.

Definition verbatimLine (width : nat) (row : list value) : string :=
  String.concat "," (map (fun i => verbatimField (index row i)) (seq 0 width)).

Definition verbatimCSV (r : SqliteTs.QueryExecResult) : string :=
  String.concat newline
    (String.concat "," (SqliteTs.columns r)
       :: map (verbatimLine (length (SqliteTs.columns r))) (SqliteTs.values r)).

End WithNumbers.

End CsvFormat.

(** ** What the two introspection statements report *)

Module Introspection.

Import Js.

Section WithNumbers.
Context `{NumberToString}.

(** The column names of [PRAGMA table_info]: field 1 of each row. *)
Definition reportedColumns (info : SqliteTs.QueryExecResult) : list string :=
  map (fun row => to_string (index row 1)) (SqliteTs.values info).

(** The column names of [PRAGMA foreign_key_list]: field 3 of each row of
    its result set, none when it has no result set. *)
Definition foreignKeyColumns (result : list SqliteTs.QueryExecResult) : list string :=
  match result with
  | fk :: _ => map (fun row => to_string (index row 3)) (SqliteTs.values fk)
  | [] => []
  end.

End WithNumbers.

End Introspection.

(** ** Counting characters *)

Module Text.

(** How many times the character [c] occurs in [s]. *)
Fixpoint occurrences (c : ascii) (s : string) : nat :=
  match s with
  | EmptyString => 0
  | String c' s' => (if Ascii.eqb c c' then 1 else 0) + occurrences c s'
  end.

(** The line feed, as a character. *)
Definition lineFeed : ascii := ascii_of_nat 10.

End Text.

(** ** The worker: the [try] block of [exec], and the unanswered commands *)

Module Protocol.

Import Js Worker.

Section WithSqlite.
Context `{Sqlite.Methods}.

(** The [try] block of the [exec] case, on its own. *)
Definition execTry (query currentTable : string) (limit offset : float)
    (filters : Sqlite.Filters) (sorters : Sqlite.Sorters) : M Store unit :=
  let* '(results, doTablesChanged) := call (fun i => Sqlite.exec i query) in
  if (doTablesChanged : bool) then
    let* tableSchema := read Sqlite.tablesSchema in
    let* indexSchema := read Sqlite.indexesSchema in
    postMessage (updateInstance tableSchema indexSchema)
  else if (0 <? length results)%nat then
    postMessage (customQueryComplete results)
  else
    let* '(results, maxSize) :=
      call (fun i => Sqlite.getTableData i currentTable limit offset filters sorters) in
    postMessage (queryComplete results maxSize).

(** The three ways a command on a handler with an instance is left without
    an answer: an [init] whose [Sqlite.create] rejects, an [exec] in whose
    [try] block something that is not an [Error] is thrown, and an action
    the [switch] has no case for. *)
Definition unanswered (ev : WorkerEvent) (s : Store) : Prop :=
  match ev with
  | Init => ∃ e, Sqlite.create = Throw e
  | Exec query currentTable limit offset filters sorters =>
      ∃ s' v, execTry query currentTable limit offset filters sorters s
              = (s', Throw (NonError v))
  | Unknown _ => True
  | _ => False
  end.

(** The [queryError] the outer [catch] posts for a thrown value. *)
Definition report (e : thrown) : Response :=
  match e with
  | Error message isCustomQueryError => queryError message isCustomQueryError
  | NonError _ => queryError "Unknown error" false
  end.

End WithSqlite.

End Protocol.

(** ** The [App] component: the URL effect and [renderContent] *)

Module AppView.

Import Js App.

Section WithBrowser.
Context `{Browser}.

(** [decodeURIComponent], which throws a URIError on a malformed escape. *)
Variable decodeURIComponent : string -> outcome string.

(** The component with its [hasFetched] ref. *)
Record Mounted : Type := {
  page : State;
  hasFetched : bool
}.

(** The effect of lines 51-61, given what [urlParams.get("url")] returned.
    [fetchDatabase] is not awaited: the ref is set whatever becomes of the
    load, which never reads it. *)
Definition urlEffect (url : option string) : M Mounted unit :=
  fun m =>
    if hasFetched m then (m, Ok tt)
    else
      match truthy url with
      | None => (m, Ok tt)
      | Some u =>
          match decodeURIComponent u with
          | Throw e => (m, Throw e)
          | Ok decoded =>
              let '(p, _) := fetchDatabase decoded false (page m) in
              ({| page := p; hasFetched := true |}, Ok tt)
          end
      end.

(** The effect run again for each entry of [urls] (each what
    [urlParams.get("url")] returns at that run), until a run throws. *)
Fixpoint reruns (urls : list (option string)) (m : Mounted) : Mounted :=
  match urls with
  | [] => m
  | url :: rest =>
      match urlEffect url m with
      | (m', Ok _) => reruns rest m'
      | (m', Throw _) => m'
      end
  end.

(** What [renderContent] returns. *)
Inductive Content : Type :=
| Loading (text : string)
| ErrorMessage (text : string)
| DBTable
| Nothing.

(** [renderContent], on the values it reads: [isLoading], [db] (whether a
    database is open) and [tables.length] from the store, [isFetching] and
    [fetchError] from the component. *)
Definition renderContent (isLoading isFetching : bool) (fetchError : option string)
    (db : bool) (tables : nat) : Content :=
  if isLoading || isFetching then
    Loading ((if isFetching then "Fetching" else "Loading") +:+ " SQLite file")
  else
    match truthy fetchError, db with
    | Some message, false => ErrorMessage message
    | _, _ =>
        if db then
          if (0 <? tables)%nat then DBTable
          else ErrorMessage "Your database is empty, no tables found"
        else Nothing
    end.

End WithBrowser.

End AppView.

(** ** More scripted collaborators *)

Module ScriptedMore.

Import Js.

(** A [Sqlite] class that refuses the empty file and reads tables through
    the scripted reader. *)
Definition picky : Sqlite.Methods := {|
  Sqlite.t := nat;
  Sqlite.TableSchema := nat;
  Sqlite.IndexSchema := nat;
  Sqlite.Filters := unit;
  Sqlite.Sorters := unit;
  Sqlite.create := Ok 0%nat;
  Sqlite.open := fun bytes =>
    match bytes with
    | [] => Throw (Error "file is not a database" false)
    | _ => Ok (length bytes)
    end;
  Sqlite.tablesSchema := fun i => i;
  Sqlite.indexesSchema := fun i => i;
  Sqlite.firstTable := fun _ => Null;
  Sqlite.getTableData := fun i table _ _ _ _ => (S i, Scripted.scriptedTableData table);
  Sqlite.exec := fun i query => (S i, Scripted.scriptedExec query);
  Sqlite.download := fun i => (S i, Ok []);
  Sqlite.update := fun i _ _ _ _ => (S i, Ok tt);
  Sqlite.delete := fun i _ _ => (S i, Ok tt);
  Sqlite.insert := fun i _ _ _ => (S i, Ok tt);
  Sqlite.getTableAsCsv := fun i _ => (S i, Ok "");
  Sqlite.getCurrentDataAsCsv := fun i _ _ _ _ _ => (S i, Ok "")
|}.

Definition pickyHandler (instance : option nat) (posted : list (@Worker.Response picky)) :
    @Worker.Store picky :=
  @Worker.Build_Store picky instance posted [].

(** A database on which no statement answers. *)
Definition broken : Scripted.Answers := [].

(** A database without a table [ghost]: as in SQLite, [PRAGMA table_info]
    on it answers with no result set. *)
Definition ghostless : Scripted.Answers :=
  [ (SqliteTs.tableInfoQuery "ghost", []) ].

(** A result set with a column named [__proto__], as
    [SELECT 'x' AS __proto__, 'y' AS b] gives. *)
Definition protoColumn : SqliteTs.QueryExecResult :=
  {| SqliteTs.columns := ["__proto__"; "b"]; SqliteTs.values := [[Str "x"; Str "y"]] |}.

(** A database with a table [p(__proto__ TEXT, b TEXT)] without foreign
    keys: [PRAGMA foreign_key_list] answers with no result set. *)
Definition protoInfo : SqliteTs.QueryExecResult :=
  {| SqliteTs.columns := ["cid"; "name"; "type"; "notnull"; "dflt_value"; "pk"];
     SqliteTs.values :=
       [ [Number 0; Str "__proto__"; Str "TEXT"; Number 0; Null; Number 0];
         [Number 1; Str "b"; Str "TEXT"; Number 0; Null; Number 0] ] |}.

Definition protoDatabase : Scripted.Answers :=
  [ (SqliteTs.tableInfoQuery "p", [protoInfo]);
    (SqliteTs.foreignKeyListQuery "p", []) ].

(** The page of the scripted network with its [hasFetched] ref. *)
Definition mounted (p : @App.State Scripted.browser) (hasFetched : bool) :
    @AppView.Mounted Scripted.browser :=
  @AppView.Build_Mounted Scripted.browser p hasFetched.

End ScriptedMore.

(** * Properties *)

(** ** Result sets as rows: [mapQueryResults] *)

Section MapQueryResultsFacts.
Import Js SqliteTs Scripted.
Implicit Types (cols : list string) (row : list value) (acc : gmap string value).

(** [__proto__] and the names the reducer never meets keep the
    accumulator's binding. *)
Lemma assign_lookup_ne {V} (o : gmap string V) (c k : string) (v : V) :
  c ≠ k → assign o c v !! k = o !! k.
Proof. intros Hne. unfold assign. case_bool_decide; [done|]. by rewrite lookup_insert_ne. Qed.

Lemma assign_lookup_proto {V} (o : gmap string V) (c : string) (v : V) :
  assign o c v !! "__proto__" = o !! "__proto__".
Proof.
  unfold assign. case_bool_decide as Hc; [done|]. by rewrite lookup_insert_ne.
Qed.

Lemma assign_lookup_eq {V} (o : gmap string V) (k : string) (v : V) :
  k ≠ "__proto__" → assign o k v !! k = Some v.
Proof. intros Hk. unfold assign. rewrite bool_decide_eq_false_2 by done. apply lookup_insert_eq. Qed.

Lemma mapRow_from_notin cols row i acc k :
  k ∉ cols →
  reduce_from (fun a col j => assign a col (index row j)) i cols acc !! k = acc !! k.
Proof.
  revert i acc. induction cols as [|c cols IH]; intros i acc Hk; [done|].
  apply not_elem_of_cons in Hk as [Hkc Hk]. simpl.
  rewrite IH by done. by rewrite assign_lookup_ne.
Qed.

(** The reducer binds a column name other than [__proto__] to the cell at
    the last position that carries the name. *)
Lemma mapRow_from_last cols row i acc j k :
  k ≠ "__proto__" →
  cols !! j = Some k →
  k ∉ drop (S j) cols →
  reduce_from (fun a col n => assign a col (index row n)) i cols acc !! k
  = Some (index row (i + j)).
Proof.
  intros Hk.
  revert i acc j. induction cols as [|c cols IH]; intros i acc j Hj Hlast; [done|].
  destruct j as [|j]; simpl in *.
  - injection Hj as ->. rewrite drop_0 in Hlast.
    rewrite mapRow_from_notin by done.
    rewrite assign_lookup_eq by done. by rewrite Nat.add_0_r.
  - rewrite (IH (S i) _ j) by done. f_equal. f_equal. lia.
Qed.

Lemma NoDup_not_later cols j k :
  NoDup cols → cols !! j = Some k → k ∉ drop (S j) cols.
Proof.
  intros Hnd Hj [m Hm]%list_elem_of_lookup.
  rewrite lookup_drop in Hm.
  pose proof (NoDup_lookup _ _ _ _ Hnd Hj Hm). lia.
Qed.

Lemma mapRow_last cols row j k :
  k ≠ "__proto__" →
  cols !! j = Some k →
  k ∉ drop (S j) cols →
  prop (mapRow cols row) k = index row j.
Proof.
  intros Hk Hj Hlast. unfold prop, mapRow, reduce.
  by rewrite (mapRow_from_last cols row 0 ∅ j k).
Qed.

Lemma mapRow_NoDup cols row j k :
  k ≠ "__proto__" →
  NoDup cols →
  cols !! j = Some k →
  prop (mapRow cols row) k = index row j.
Proof. intros Hk Hnd Hj. apply mapRow_last; [done..|]. by apply NoDup_not_later. Qed.

Lemma not_proto_of_notin cols j k :
  "__proto__" ∉ cols → cols !! j = Some k → k ≠ "__proto__".
Proof. intros Hnot Hj ->. apply Hnot. by eapply list_elem_of_lookup_2. Qed.

(** C7 (amended): the columns of the first result set are returned in their
    order, there is one row object per value tuple, in order, and when the
    column names are pairwise distinct and none of them is [__proto__] the
    object of tuple [n] maps the name of column [i] to the tuple's cell [i];
    with no result set, the rows and the columns are both empty. *)
Theorem mapQueryResults_zip (r : QueryExecResult) (rest : list QueryExecResult)
    (n i : nat) row col :
  NoDup (columns r) →
  "__proto__" ∉ columns r →
  values r !! n = Some row →
  columns r !! i = Some col →
  snd (mapQueryResults (r :: rest)) = columns r ∧
  length (fst (mapQueryResults (r :: rest))) = length (values r) ∧
  (∃ obj, fst (mapQueryResults (r :: rest)) !! n = Some obj ∧
          prop obj col = index row i) ∧
  mapQueryResults [] = ([], []).
Proof.
  intros Hnd Hproto Hrow Hcol. simpl. split; [done|]. split; [by rewrite length_map|].
  split; [|done].
  exists (mapRow (columns r) row). split.
  - by rewrite list_lookup_fmap, Hrow.
  - apply mapRow_NoDup; [|done..]. by eapply not_proto_of_notin.
Qed.


End MapQueryResultsFacts.

(** ** Only the first result set is read *)

Section FirstResultSetFacts.
Import Js SqliteTs.
Context `{Host}.

(** [getTableNames] on an engine answer with at least one result set. *)
Lemma getTableNames_ok (w : World) d r rest :
  db_exec (database w) tableNamesQuery = (d, Ok (r :: rest)) →
  getTableNames w =
    ({| database := d; executed := tableNamesQuery :: executed w;
        console := console w; saved := saved w |},
     Ok (map (fun row => index row 0) (values r))).
Proof.
  intros Hexec. unfold getTableNames, try_catch, bind, exec.
  by rewrite Hexec.
Qed.

(** [getTableNames] never throws. *)
Lemma getTableNames_total (w : World) :
  ∃ w' names, getTableNames w = (w', Ok names).
Proof.
  unfold getTableNames, try_catch, bind, exec.
  destruct (db_exec (database w) tableNamesQuery) as [d [result|e]]; simpl; eauto.
Qed.

(** C10: when the engine answers with several result sets, the rows and
    columns of [mapQueryResults] and the names of [getTableNames] are those
    of the first one; the later ones leave no trace (no error, no log
    line). *)
Theorem first_result_set_only (w : World) d (r : QueryExecResult) (rest : list QueryExecResult) :
  db_exec (database w) tableNamesQuery = (d, Ok (r :: rest)) →
  mapQueryResults (r :: rest) = mapQueryResults [r] ∧
  mapQueryResults (r :: rest) = (map (mapRow (columns r)) (values r), columns r) ∧
  getTableNames w =
    ({| database := d; executed := tableNamesQuery :: executed w;
        console := console w; saved := saved w |},
     Ok (map (fun row => index row 0) (values r))).
Proof.
  intros Hexec. split; [reflexivity|]. split; [reflexivity|].
  by apply (getTableNames_ok w d r rest).
Qed.

End FirstResultSetFacts.


(** ** CSV export: [arrayToCSV] and [exportTableAsCSV] *)

Section CsvFacts.
Import Js SqliteTs CsvFormat.


Context `{Host}.

(** On distinct column names, none of them [__proto__], the line of a mapped
    row is the line of its value tuple. *)
Lemma csvRow_mapRow (cols : list string) (row : list value) :
  NoDup cols →
  "__proto__" ∉ cols →
  csvRow cols (mapRow cols row) = verbatimLine (length cols) row.
Proof.
  intros Hnd Hproto. unfold csvRow, verbatimLine. f_equal.
  apply list_eq. intros i. rewrite !list_lookup_fmap.
  destruct (cols !! i) as [c|] eqn:Hc; simpl.
  - rewrite lookup_seq_lt by (by eapply lookup_lt_Some). simpl.
    unfold csvField, verbatimField.
    rewrite (mapRow_NoDup cols row i c); [done| |done..].
    by eapply not_proto_of_notin.
  - rewrite lookup_seq_ge; [done|]. by apply lookup_ge_None.
Qed.

Lemma arrayToCSV_mapQueryResults (r : QueryExecResult) (rest : list QueryExecResult) :
  NoDup (columns r) →
  "__proto__" ∉ columns r →
  arrayToCSV (snd (mapQueryResults (r :: rest))) (fst (mapQueryResults (r :: rest)))
  = verbatimCSV r.
Proof.
  intros Hnd Hproto. unfold arrayToCSV, verbatimCSV, mapQueryResults. cbn [fst snd].
  assert (map (csvRow (columns r)) (map (mapRow (columns r)) (values r))
          = map (verbatimLine (length (columns r))) (values r)) as ->; [|done].
  rewrite map_map. apply map_ext. intros row. by apply csvRow_mapRow.
Qed.

(** X22: for a table whose columns have distinct names, none of them
    [__proto__], [exportTableAsCSV] saves under [<table>.csv] the text made
    of the column names in result order joined by commas, then one line per
    row, cells comma-separated, each cell's text put between double quotes
    as it is, the lines joined by line feeds. *)
Theorem exportTableAsCSV_saves_verbatim (w w1 : World) (tableIndex : Z)
    (tableNames : list value) d (r : QueryExecResult) (rest : list QueryExecResult) :
  let tableName := nameAt tableNames tableIndex in
  getTableNames w = (w1, Ok tableNames) →
  db_exec (database w1) (selectAll tableName) = (d, Ok (r :: rest)) →
  NoDup (columns r) →
  "__proto__" ∉ columns r →
  saveAs_throws (verbatimCSV r) (to_string tableName +:+ ".csv") = None →
  exportTableAsCSV tableIndex w =
    ({| database := d;
        executed := selectAll tableName :: executed w1;
        console := console w1;
        saved := (verbatimCSV r, to_string tableName +:+ ".csv") :: saved w1 |},
     Ok tt).
Proof.
  intros tableName Hnames Hexec Hnd Hproto Hsave.
  unfold exportTableAsCSV, bind. rewrite Hnames. fold tableName.
  unfold try_catch, exportBody, bind, exec. rewrite Hexec.
  cbn [length bool_decide decide_rel].
  pose proof (arrayToCSV_mapQueryResults r rest Hnd Hproto) as Hcsv.
  destruct (mapQueryResults (r :: rest)) as [data cols]. cbn [fst snd] in Hcsv.
  rewrite bool_decide_eq_false_2 by done.
  rewrite Hcsv. unfold saveAs. cbn [database executed console saved].
  by rewrite Hsave.
Qed.

End CsvFacts.


(** ** Schema introspection: [getTableSchema] *)

Section SchemaFacts.
Import Js SqliteTs Introspection.

Section Folds.
Context `{NumberToString}.
Implicit Types (rows : list (list value)) (m acc : gmap string ColumnInfo).

(** After the reducer, a name is bound exactly when a row reported it and it
    is not [__proto__], or the accumulator already had it. *)
Lemma addColumn_fold_is_Some rows acc c :
  is_Some (fold_left addColumn rows acc !! c) ↔
  (c ≠ "__proto__" ∧ c ∈ map (fun row => to_string (index row 1)) rows)
  ∨ is_Some (acc !! c).
Proof.
  revert acc. induction rows as [|row rows IH]; intros acc; simpl.
  - rewrite elem_of_nil. tauto.
  - rewrite IH, elem_of_cons. unfold addColumn.
    destruct (decide (to_string (index row 1) = c)) as [->|Hne].
    + destruct (decide (c = "__proto__")) as [Hp|Hp].
      * rewrite Hp, assign_lookup_proto. intuition congruence.
      * rewrite assign_lookup_eq by done.
        split; [intros _; left; split; [done|by left]|intros _; right; by eexists].
    + rewrite assign_lookup_ne by done. intuition congruence.
Qed.

(** Every binding the reducer leaves was written from a row of that name, or
    was in the accumulator. *)
Lemma addColumn_fold_entry rows acc c e :
  fold_left addColumn rows acc !! c = Some e →
  (∃ row, row ∈ rows ∧ to_string (index row 1) = c ∧
          e = {| type := index row 2;
                 isPrimaryKey := strict_eq_one (index row 5);
                 isForeignKey := false |})
  ∨ acc !! c = Some e.
Proof.
  revert acc. induction rows as [|row rows IH]; intros acc; simpl; [by right|].
  intros [(row' & Hin & Hname & He)|Hacc]%IH.
  - left. exists row'. split; [by apply list_elem_of_further|done].
  - unfold addColumn in Hacc.
    destruct (decide (to_string (index row 1) = c)) as [Heq|Hne].
    + destruct (decide (c = "__proto__")) as [->|Hp].
      * rewrite assign_lookup_proto in Hacc. by right.
      * rewrite Heq, assign_lookup_eq in Hacc by done. injection Hacc as <-.
        left. exists row. split; [by apply list_elem_of_here|done].
    + rewrite assign_lookup_ne in Hacc by done. by right.
Qed.

(** The foreign-key pass changes no binding but the flag, which it raises
    exactly on the names it meets. *)
Lemma markForeignKey_fold_lookup rows m c :
  fold_left markForeignKey rows m !! c =
  (fun e => {| type := type e; isPrimaryKey := isPrimaryKey e;
               isForeignKey :=
                 isForeignKey e
                 || bool_decide (c ∈ map (fun row => to_string (index row 3)) rows) |})
    <$> m !! c.
Proof.
  revert m. induction rows as [|row rows IH]; intros m; simpl.
  - destruct (m !! c) as [[ty pk fk]|]; simpl; [|done].
    by rewrite orb_false_r.
  - rewrite IH. unfold markForeignKey.
    destruct (decide (to_string (index row 3) = c)) as [->|Hne].
    + destruct (m !! c) as [e|] eqn:Hm.
      * rewrite lookup_insert_eq. simpl.
        rewrite (bool_decide_eq_true_2 (c ∈ c :: _)) by apply list_elem_of_here.
        by rewrite orb_true_r.
      * by rewrite Hm.
    + assert (bool_decide (c ∈ to_string (index row 3)
                               :: map (fun row => to_string (index row 3)) rows)
              = bool_decide (c ∈ map (fun row => to_string (index row 3)) rows)) as ->.
      { apply bool_decide_ext. rewrite elem_of_cons. intuition congruence. }
      destruct (m !! to_string (index row 3)) as [e|]; [|done].
      by rewrite lookup_insert_ne.
Qed.

End Folds.

Context `{Host}.

(** X21: for a table none of whose columns is named [__proto__], and whose
    foreign-key columns are columns of the table (as they are in SQLite),
    when both introspection statements answer, [getTableSchema] returns a
    schema object whose keys are exactly the column names reported by
    [PRAGMA table_info]; each entry carries the declared type and
    primary-key flag of a reported row of that name, and its [isForeignKey]
    is true exactly when the name is among the columns of
    [PRAGMA foreign_key_list], false otherwise. *)
Theorem getTableSchema_complete (w : World) (tableName : string) d1 d2
    (info : QueryExecResult) (rest fkResult : list QueryExecResult) :
  db_exec (database w) (tableInfoQuery tableName) = (d1, Ok (info :: rest)) →
  db_exec d1 (foreignKeyListQuery tableName) = (d2, Ok fkResult) →
  "__proto__" ∉ reportedColumns info →
  (∀ c, c ∈ foreignKeyColumns fkResult → c ∈ reportedColumns info) →
  ∃ schema : gmap string ColumnInfo,
    getTableSchema tableName w =
      ({| database := d2;
          executed := foreignKeyListQuery tableName :: tableInfoQuery tableName :: executed w;
          console := console w; saved := saved w |},
       Ok schema) ∧
    (∀ c, is_Some (schema !! c) ↔ c ∈ reportedColumns info) ∧
    (∀ c e, schema !! c = Some e →
       (isForeignKey e = true ↔ c ∈ foreignKeyColumns fkResult) ∧
       (isForeignKey e = false ↔ c ∉ foreignKeyColumns fkResult) ∧
       ∃ row, row ∈ values info ∧ to_string (index row 1) = c ∧
              type e = index row 2 ∧
              isPrimaryKey e = strict_eq_one (index row 5)).
Proof.
  intros Hinfo Hfk Hproto _.
  set (base := fold_left addColumn (values info) ∅).
  set (fkRows := match fkResult with fk :: _ => values fk | [] => [] end).
  exists (fold_left markForeignKey fkRows base).
  assert (foreignKeyColumns fkResult
          = map (fun row => to_string (index row 3)) fkRows) as Hcols.
  { unfold foreignKeyColumns, fkRows. by destruct fkResult. }
  split; [|split].
  - unfold getTableSchema, try_catch, bind, exec. rewrite Hinfo. simpl.
    rewrite Hfk. unfold ret, fkRows, base. by destruct fkResult.
  - intros c. rewrite markForeignKey_fold_lookup, fmap_is_Some.
    unfold base. rewrite addColumn_fold_is_Some, lookup_empty.
    unfold reportedColumns in *. split.
    + intros [[_ ?]|[? ?]]; [done|discriminate].
    + intros Hc. left. split; [|done]. by intros ->.
  - intros c e. rewrite markForeignKey_fold_lookup, Hcols.
    destruct (base !! c) as [e0|] eqn:Hbase; simpl; [|discriminate].
    intros [= <-]. simpl.
    apply addColumn_fold_entry in Hbase as [(row & Hin & Hname & ->)|Hempty];
      [|by rewrite lookup_empty in Hempty].
    simpl. rewrite bool_decide_eq_true, <- not_true_iff_false, bool_decide_eq_true.
    split; [done|]. split; [done|]. by exists row.
Qed.

End SchemaFacts.


(** ** Failures while exporting: [exportAllTablesAsCSV], [exportTableAsCSV] *)

Section ExportFailureFacts.
Import Js SqliteTs.
Context `{Host}.

(** The body of an export runs exactly one statement, whatever comes of
    it. *)
Lemma exportBody_executed (tableName : value) (w : World) :
  executed (fst (exportBody tableName w)) = selectAll tableName :: executed w.
Proof.
  unfold exportBody, bind, exec.
  destruct (db_exec (database w) (selectAll tableName)) as [d [result|e]]; [|done].
  case_bool_decide; [done|].
  destruct (mapQueryResults result) as [data cols].
  unfold saveAs. cbn [database executed console saved].
  by destruct (saveAs_throws _ _).
Qed.

(** The body of an export writes nothing to the console. *)
Lemma exportBody_console (tableName : value) (w : World) :
  console (fst (exportBody tableName w)) = console w.
Proof.
  unfold exportBody, bind, exec.
  destruct (db_exec (database w) (selectAll tableName)) as [d [result|e]]; [|done].
  case_bool_decide; [done|].
  destruct (mapQueryResults result) as [data cols].
  unfold saveAs. cbn [database executed console saved].
  by destruct (saveAs_throws _ _).
Qed.

(** One call of the callback: it returns normally, has run the table's
    statement, and has put a failure of its body on top of the console. *)
Lemma exportEach_step (tableName : value) (w : World) :
  ∃ w', exportEach tableName w = (w', Ok tt) ∧
        executed w' = selectAll tableName :: executed w ∧
        (∃ entries, console w' = (entries ++ console w)%list) ∧
        (∀ w2 e, exportBody tableName w = (w2, Throw e) →
                 console w' = (exportFailed tableName, e) :: console w2).
Proof.
  pose proof (exportBody_executed tableName w) as Hexe.
  pose proof (exportBody_console tableName w) as Hcon.
  unfold exportEach, try_catch.
  destruct (exportBody tableName w) as [w2 [[]|e]]; simpl in Hexe, Hcon.
  - exists w2. split; [done|]. split; [done|]. split; [by exists []|]. intros ? ? [=].
  - eexists. split; [reflexivity|]. simpl. split; [done|]. split.
    + exists [(exportFailed tableName, e)]. by rewrite Hcon.
    + by intros ? ? [= <- <-].
Qed.

(** The loop returns normally, has run the statement of every name in turn,
    and has only added to the console. *)
Lemma exportAll_loop (tableNames : list value) (w : World) :
  ∃ w', forEach exportEach tableNames w = (w', Ok tt) ∧
        executed w' = (rev (map selectAll tableNames) ++ executed w)%list ∧
        ∃ entries, console w' = (entries ++ console w)%list.
Proof.
  revert w. induction tableNames as [|tableName tableNames IH]; intros w; simpl.
  - exists w. split; [done|]. split; [done|]. by exists [].
  - destruct (exportEach_step tableName w) as (w1 & Hstep & Hexe & [entries1 Hcon] & _).
    destruct (IH w1) as (w' & Hloop & Hexe' & [entries Hcon']).
    exists w'. unfold bind. rewrite Hstep. split; [done|]. split.
    + by rewrite Hexe', Hexe, <- app_assoc.
    + exists (entries ++ entries1)%list. by rewrite Hcon', Hcon, app_assoc.
Qed.

(** The loop over a list in two parts. *)
Lemma exportAll_loop_app (l1 l2 : list value) (w : World) :
  forEach exportEach (l1 ++ l2)%list w
  = forEach exportEach l2 (fst (forEach exportEach l1 w)).
Proof.
  revert w. induction l1 as [|tableName l1 IH]; intros w; simpl; [done|].
  destruct (exportEach_step tableName w) as (w1 & Hstep & _).
  unfold bind. rewrite Hstep. apply IH.
Qed.

(** C9: [exportAllTablesAsCSV] returns normally on every database, having run
    the [SELECT] of every listed table in turn, whether or not an earlier
    one failed; when the export of the table at position [k] fails, in the
    world the loop has reached after the [k] tables before it, the failure
    is on the console that [exportAllTablesAsCSV] leaves, logged on top of
    what was there when it happened and below what the later tables log;
    [exportTableAsCSV] logs the failure of its table and throws it again. *)
Theorem exportAll_catches_exportTable_rethrows (w : World) :
  ∃ w1 tableNames w',
    getTableNames w = (w1, Ok tableNames) ∧
    exportAllTablesAsCSV w = (w', Ok tt) ∧
    executed w' = (rev (map selectAll tableNames) ++ executed w1)%list ∧
    (∀ k tableName w2 e,
       tableNames !! k = Some tableName →
       exportBody tableName (fst (forEach exportEach (take k tableNames) w1))
       = (w2, Throw e) →
       ∃ later, console w'
                = (later ++ (exportFailed tableName, e) :: console w2)%list) ∧
    (∀ tableIndex w2 e,
       exportBody (nameAt tableNames tableIndex) w1 = (w2, Throw e) →
       exportTableAsCSV tableIndex w =
         ({| database := database w2; executed := executed w2;
             console := (exportFailed (nameAt tableNames tableIndex), e) :: console w2;
             saved := saved w2 |},
          Throw e)).
Proof.
  destruct (getTableNames_total w) as (w1 & tableNames & Hnames).
  destruct (exportAll_loop tableNames w1) as (w' & Hloop & Hexe & _).
  exists w1, tableNames, w'. split; [done|]. split; [|split; [done|split]].
  - unfold exportAllTablesAsCSV, bind. by rewrite Hnames.
  - intros k tableName w2 e Hk Hbody.
    rewrite <- (take_drop_middle tableNames k tableName Hk) in Hloop.
    rewrite exportAll_loop_app in Hloop. cbn [forEach] in Hloop.
    destruct (exportEach_step tableName (fst (forEach exportEach (take k tableNames) w1)))
      as (wk & Hstep & _ & _ & Hlog).
    unfold bind in Hloop. rewrite Hstep in Hloop.
    destruct (exportAll_loop (drop (S k) tableNames) wk) as (w'' & Hrest & _ & [later Hcon]).
    rewrite Hrest in Hloop. injection Hloop as <-.
    exists later. by rewrite Hcon, (Hlog w2 e Hbody).
  - intros tableIndex w2 e Hbody.
    unfold exportTableAsCSV, bind. rewrite Hnames.
    unfold try_catch. by rewrite Hbody.
Qed.

End ExportFailureFacts.


(** ** The worker protocol: [self.onmessage] *)

Section WorkerFacts.
Import Js Worker.
Context `{Sqlite.Methods}.

(** C1 (amended): with no instance, [init] is the one command the handler
    accepts (it creates the instance and answers [initComplete]); every
    other command, [openFile] included, is answered at once with the
    [queryError] "Database is not initialized", not marked as a custom query
    error, and leaves the handler without an instance. *)
Theorem uninitialized_accepts_only_init (ev : WorkerEvent) (s : Store) :
  instance s = None →
  (ev ≠ Init →
   onmessage ev s =
     ({| instance := None; posted := notInitialized :: posted s; warned := warned s |},
      Ok tt)) ∧
  (ev = Init →
   ∀ i, Sqlite.create = Ok i →
   onmessage ev s =
     ({| instance := Some i;
         posted := initComplete (Sqlite.tablesSchema i) (Sqlite.indexesSchema i)
                     (Sqlite.firstTable i) :: posted s;
         warned := warned s |},
      Ok tt)).
Proof.
  destruct s as [current outbox warnings]. cbn. intros ->. split.
  - intros Hev. destruct ev; [by destruct Hev|..]; reflexivity.
  - intros -> i Hcreate. run_handler. by rewrite Hcreate.
Qed.

(** C3: on a handler with an instance, an [exec] whose statement runs
    answers with the schemas ([updateInstance]) when the statement changed
    the tables, else with the statement's rows ([customQueryComplete]) when
    there are any, else with the rows and [maxSize] of [getTableData] on the
    request's table, limit, offset, filters and sorters ([queryComplete]). *)
Theorem exec_response (s : Store) (i i1 : Sqlite.t) (query currentTable : string)
    (limit offset : float) (filters : Sqlite.Filters) (sorters : Sqlite.Sorters)
    (results : list (gmap string value)) (doTablesChanged : bool) :
  instance s = Some i →
  Sqlite.exec i query = (i1, Ok (results, doTablesChanged)) →
  (doTablesChanged = true →
   onmessage (Exec query currentTable limit offset filters sorters) s =
     ({| instance := Some i1;
         posted := updateInstance (Sqlite.tablesSchema i1) (Sqlite.indexesSchema i1)
                     :: posted s;
         warned := warned s |},
      Ok tt)) ∧
  (doTablesChanged = false → results ≠ [] →
   onmessage (Exec query currentTable limit offset filters sorters) s =
     ({| instance := Some i1;
         posted := customQueryComplete results :: posted s;
         warned := warned s |},
      Ok tt)) ∧
  (doTablesChanged = false → results = [] →
   ∀ i2 rows maxSize,
   Sqlite.getTableData i1 currentTable limit offset filters sorters
   = (i2, Ok (rows, maxSize)) →
   onmessage (Exec query currentTable limit offset filters sorters) s =
     ({| instance := Some i2;
         posted := queryComplete rows maxSize :: posted s;
         warned := warned s |},
      Ok tt)).
Proof.
  destruct s as [current outbox warnings]. cbn. intros -> Hexec. repeat split.
  - intros ->. run_handler. by rewrite Hexec.
  - intros -> Hrows. run_handler. rewrite Hexec. by destruct results.
  - intros -> -> i2 rows maxSize Hdata. run_handler. rewrite Hexec. cbn.
    by rewrite Hdata.
Qed.

(** X10: whatever the command and whatever the instance does, the handler
    posts at most one message. *)
Lemma onmessage_at_most_one (ev : WorkerEvent) (s : Store) :
  posted (fst (onmessage ev s)) = posted s ∨
  ∃ r, posted (fst (onmessage ev s)) = r :: posted s.
Proof.
  destruct s as [current outbox warnings].
  destruct ev; run_handler; destruct current; cbn;
    repeat (case_match; simplify_eq; cbn in * ); eauto.
Qed.

(** On a handler with an instance, every command of the [switch] other than
    [exec] is answered with exactly one message, whether the call on the
    instance returns or throws, and whatever it throws. *)
Lemma plain_command_answered_once (ev : WorkerEvent) (s : Store) (i : Sqlite.t) :
  instance s = Some i →
  plainCommand ev = true →
  ∃ r, onmessage ev s = (fst (onmessage ev s), Ok tt) ∧
       posted (fst (onmessage ev s)) = r :: posted s.
Proof.
  destruct s as [current outbox warnings]. cbn. intros -> Hplain.
  destruct ev; try discriminate Hplain; run_handler;
    repeat (case_match; simplify_eq; cbn in * ); eauto.
Qed.

(** X15: on a handler with an instance, what the [switch] throws is turned
    into the one [queryError] of the outer [catch]. *)
Lemma ready_failure_reported (ev : WorkerEvent) (s s' : Store) (i : Sqlite.t) (e : thrown) :
  instance s = Some i →
  ev ≠ Init →
  switch ev s = (s', Throw e) →
  onmessage ev s =
    ({| instance := instance s';
        posted := match e with
                  | Error message isCustomQueryError =>
                      queryError message isCustomQueryError
                  | NonError _ => queryError "Unknown error" false
                  end :: posted s';
        warned := warned s' |},
     Ok tt).
Proof.
  intros Hinst Hev Hthrow.
  assert (onmessage ev s = try_catch (switch ev) onError s) as ->.
  { destruct ev; [by destruct Hev|..]; unfold onmessage, bind, gets; by rewrite Hinst. }
  unfold try_catch. rewrite Hthrow. by destruct e.
Qed.

(** What leaves the [exec] case is an [Error] marked as a custom query
    error: any [Error] thrown inside it is wrapped, and anything else thrown
    inside it is dropped. *)
Lemma execCase_throws_custom (query currentTable : string) (limit offset : float)
    (filters : Sqlite.Filters) (sorters : Sqlite.Sorters) (s s' : Store) (e : thrown) :
  execCase query currentTable limit offset filters sorters s = (s', Throw e) →
  ∃ message, e = Error message true.
Proof.
  unfold execCase, execCatch, try_catch.
  destruct (bind _ _ s) as [s1 [[]|[message custom|v]]]; cbn; [done| |done].
  intros [= _ <-]. by exists message.
Qed.

End WorkerFacts.

(** ** The remote load: [fetchDatabase] and [handleRetryWithProxy] *)

Section RemoteLoadFacts.
Import Js App.
Context `{Browser}.

(** One attempt hands exactly one URL to [fetch], and touches neither the
    dialog nor the remembered URL, whatever comes of it. *)
Lemma attempt_state (url : string) (useProxy : bool) (s : State) :
  let s1 := fst (attempt url useProxy s) in
  requests s1 = (if useProxy then proxied url else url) :: requests s ∧
  showDialog s1 = showDialog s ∧
  urlToFetch s1 = urlToFetch s.
Proof.
  run_app.
  destruct (net_fetch (net s) _) as [n [[[] [b|e]]|e]]; cbn; auto.
  destruct (net_loadDatabase n b) as [n' [[]|e]]; cbn; auto.
Qed.

(** A failed attempt leaves the displayed error as it was. *)
Lemma attempt_failure_keeps_error (url : string) (useProxy : bool) (s s1 : State) e :
  attempt url useProxy s = (s1, Throw e) → fetchError s1 = fetchError s.
Proof.
  run_app.
  destruct (net_fetch (net s) _) as [n [[[] [b|e0]]|e0]]; cbn;
    try (by intros [= <- _]).
  destruct (net_loadDatabase n b) as [n' [[]|e1]]; cbn; [done|].
  by intros [= <- _].
Qed.

(** An HTTP failure is one of the failures of an attempt. *)
Lemma attempt_http_failure (url : string) (useProxy : bool) (s : State) n response :
  net_fetch (net s) (if useProxy then proxied url else url) = (n, Ok response) →
  ok response = false →
  snd (attempt url useProxy s) = Throw (Error "URL not found or invalid" false).
Proof. intros Hfetch Hok. run_app. rewrite Hfetch. cbn. by rewrite Hok. Qed.

(** The proxied load: one request to the relay, never a dialog; its failure
    becomes the displayed error. *)
Lemma fetchDatabase_proxy (url : string) (s : State) :
  ∃ s', fetchDatabase url true s = (s', Ok tt) ∧
        requests s' = proxied url :: requests s ∧
        showDialog s' = showDialog s ∧
        urlToFetch s' = urlToFetch s ∧
        (∀ s1 e, attempt url true s = (s1, Throw e) →
                 fetchError s' = Some ("Error whilefetching, " +:+ describe e)) ∧
        (∀ s1, attempt url true s = (s1, Ok tt) → fetchError s' = None).
Proof.
  pose proof (attempt_state url true s) as (Hreq & Hdlg & Hurl).
  unfold fetchDatabase, try_finally, try_catch, onFetchFailure.
  destruct (attempt url true s) as [s1 [[]|e]] eqn:Hattempt; cbn in *.
  - eexists. split; [reflexivity|]. cbn. repeat split; try done.
    intros s2. revert Hattempt. run_app.
    destruct (net_fetch (net s) _) as [n [[[] [b|e]]|e]]; cbn; try done.
    destruct (net_loadDatabase n b) as [n' [[]|e]]; cbn; [|done].
    by intros [= <-].
  - eexists. split; [reflexivity|]. cbn. repeat split; try done.
    by intros s2 e' [= _ <-].
Qed.

(** C8 (amended): any failure of the direct attempt, an HTTP failure
    included, ends the load with the confirmation dialog open on the same
    URL and no error shown; confirming it makes exactly one further
    request, for that URL through the relay, and closes the dialog; a
    failure of that request is shown as the fetch error and opens no
    dialog again. *)
Theorem direct_failure_offers_one_proxy_retry (url : string) (s s1 : State) (e : thrown) :
  url ≠ "" →
  attempt url false s = (s1, Throw e) →
  let offered :=
    {| net := net s1; fetchError := fetchError s; showDialog := true;
       urlToFetch := Some url; isFetching := false; requests := url :: requests s |} in
  fetchDatabase url false s = (offered, Ok tt) ∧
  ∃ s3, handleRetryWithProxy offered = (s3, Ok tt) ∧
        requests s3 = proxied url :: url :: requests s ∧
        showDialog s3 = false ∧
        (∀ s2 e', attempt url true offered = (s2, Throw e') →
                  fetchError s3 = Some ("Error whilefetching, " +:+ describe e')).
Proof.
  intros Hurl Hattempt offered.
  pose proof (attempt_state url false s) as (Hreq & _ & _).
  pose proof (attempt_failure_keeps_error url false s s1 e Hattempt) as Herr.
  rewrite Hattempt in Hreq. cbn in Hreq.
  split.
  - unfold fetchDatabase, try_finally, try_catch. rewrite Hattempt.
    unfold onFetchFailure. cbn. unfold offered. by rewrite Hreq, Herr.
  - destruct (fetchDatabase_proxy url offered) as (s' & Hrun & Hreq' & _ & _ & Hfail & _).
    unfold handleRetryWithProxy, bind, gets. cbn [urlToFetch offered truthy].
    rewrite bool_decide_eq_false_2 by done. rewrite Hrun.
    eexists. split; [reflexivity|]. cbn. repeat split; [done|].
    intros s2 e' Hproxy. by apply (Hfail s2).
Qed.

End RemoteLoadFacts.

(** * The properties on the scripted collaborators *)

(** ** src/lib/sqlite.ts on the scripted database *)

Section OnScriptedDatabase.
Import Js SqliteTs CsvFormat Introspection Scripted ScriptedMore.
#[local] Existing Instance host.

(** C7, as stated, fails when a column name repeats: in
    [mapQueryResults [twoColumnsOneName]] the row maps the name of column 0
    to the cell of column 1; and it fails on a column named [__proto__],
    among distinct names: in [mapQueryResults [protoColumn]] the row has no
    property of that name, and reading it gives the prototype instead of the
    cell of column 0. *)
Lemma mapQueryResults_not_the_zip :
  (∃ (n i : nat) row col obj,
     values twoColumnsOneName !! n = Some row ∧
     columns twoColumnsOneName !! i = Some col ∧
     fst (mapQueryResults [twoColumnsOneName]) !! n = Some obj ∧
     prop obj col = Str "y" ∧
     index row i = Str "x" ∧
     prop obj col ≠ index row i) ∧
  (∃ (n i : nat) row col obj,
     NoDup (columns protoColumn) ∧
     values protoColumn !! n = Some row ∧
     columns protoColumn !! i = Some col ∧
     fst (mapQueryResults [protoColumn]) !! n = Some obj ∧
     obj !! col = None ∧
     prop obj col = ObjectPrototype ∧
     index row i = Str "x" ∧
     prop obj col ≠ index row i).
Proof.
  split.
  - exists 0%nat, 0%nat, [Str "x"; Str "y"], "a", (mapRow ["a"; "a"] [Str "x"; Str "y"]).
    repeat split; try reflexivity. vm_compute. discriminate.
  - exists 0%nat, 0%nat, [Str "x"; Str "y"], "__proto__",
      (mapRow ["__proto__"; "b"] [Str "x"; Str "y"]).
    split; [apply (bool_decide_unpack _); vm_compute; reflexivity|].
    repeat split; try reflexivity. vm_compute. discriminate.
Qed.

Lemma mapQueryResults_zip_witness :
  snd (mapQueryResults [tableT]) = ["id"; "name"] ∧
  length (fst (mapQueryResults [tableT])) = 2%nat ∧
  (∃ obj, fst (mapQueryResults [tableT]) !! 0%nat = Some obj ∧
          prop obj "name" = Str "ann") ∧
  mapQueryResults [] = ([], []).
Proof.
  apply (mapQueryResults_zip tableT [] 0 1 [Str "1"; Str "ann"] "name").
  - apply (bool_decide_unpack _). vm_compute. reflexivity.
  - apply (bool_decide_unpack _). vm_compute. reflexivity.
  - reflexivity.
  - reflexivity.
Defined.

Lemma first_result_set_only_witness :
  mapQueryResults [usersAndPosts; ignoredSet] = mapQueryResults [usersAndPosts] ∧
  mapQueryResults [usersAndPosts; ignoredSet]
  = (map (mapRow ["name"]) [[Str "users"]; [Str "posts"]], ["name"]) ∧
  getTableNames (world twoResultSets)
  = (worldWith twoResultSets [tableNamesQuery] [] [],
     Ok [Str "users"; Str "posts"]).
Proof.
  exact (first_result_set_only (world twoResultSets) twoResultSets
           usersAndPosts [ignoredSet] eq_refl).
Defined.

(** C5 at its failing input, a cell that holds a double quote: [arrayToCSV]
    copies the quote as it is, where the stated format doubles it, and
    [exportTableAsCSV] saves the text of the table [t] with the quote of its
    last cell left alone. *)
Lemma arrayToCSV_keeps_embedded_quote :
  arrayToCSV ["a"] [quotedRow]
  = "a" +:+ newline +:+ dquote +:+ "x" +:+ dquote +:+ "y" +:+ dquote ∧
  escapedField quotedCell
  = dquote +:+ "x" +:+ dquote +:+ dquote +:+ "y" +:+ dquote ∧
  csvField quotedRow "a" ≠ escapedField (prop quotedRow "a") ∧
  exportTableAsCSV 0 (world oneTable)
  = (worldWith oneTable ["SELECT * FROM t"; tableNamesQuery] []
       [("id,name" +:+ newline
           +:+ dquote +:+ "1" +:+ dquote +:+ "," +:+ dquote +:+ "ann" +:+ dquote +:+ newline
           +:+ dquote +:+ "2" +:+ dquote +:+ ","
           +:+ dquote +:+ "x" +:+ dquote +:+ "y" +:+ dquote,
         "t.csv")],
     Ok tt).
Proof.
  split; [reflexivity|]. split; [reflexivity|]. split; [|reflexivity].
  vm_compute. discriminate.
Qed.

Lemma exportTableAsCSV_saves_verbatim_witness :
  exportTableAsCSV 0 (world oneTable)
  = (worldWith oneTable ["SELECT * FROM t"; tableNamesQuery] []
       [(verbatimCSV tableT, "t.csv")],
     Ok tt).
Proof.
  refine (exportTableAsCSV_saves_verbatim (world oneTable)
            (worldWith oneTable [tableNamesQuery] [] [])
            0 [Str "t"] oneTable tableT [] eq_refl eq_refl _ _ eq_refl).
  - apply (bool_decide_unpack _). vm_compute. reflexivity.
  - apply (bool_decide_unpack _). vm_compute. reflexivity.
Defined.

Lemma getTableSchema_complete_witness :
  ∃ schema : gmap string ColumnInfo,
    getTableSchema "posts" (world postsDatabase) =
      (worldWith postsDatabase [foreignKeyListQuery "posts"; tableInfoQuery "posts"] [] [],
       Ok schema) ∧
    (∀ c, is_Some (schema !! c) ↔ c ∈ reportedColumns postsInfo) ∧
    (∀ c e, schema !! c = Some e →
       (isForeignKey e = true ↔ c ∈ foreignKeyColumns [postsForeignKeys]) ∧
       (isForeignKey e = false ↔ c ∉ foreignKeyColumns [postsForeignKeys]) ∧
       ∃ row, row ∈ values postsInfo ∧ to_string (index row 1) = c ∧
              type e = index row 2 ∧
              isPrimaryKey e = strict_eq_one (index row 5)).
Proof.
  refine (getTableSchema_complete (world postsDatabase) "posts"
            postsDatabase postsDatabase postsInfo [] [postsForeignKeys]
            eq_refl eq_refl _ _).
  - apply (bool_decide_unpack _). vm_compute. reflexivity.
  - intros c Hc. apply list_elem_of_singleton in Hc as ->.
    apply (bool_decide_unpack _). vm_compute. reflexivity.
Defined.

(** The schema of [posts], entry by entry. *)
Example getTableSchema_posts :
  snd (getTableSchema "posts" (world postsDatabase))
  = Ok (<[ "id" := {| type := Str "INTEGER"; isPrimaryKey := true; isForeignKey := false |} ]>
        (<[ "author" := {| type := Str "INTEGER"; isPrimaryKey := false;
                           isForeignKey := true |} ]>
         (<[ "body" := {| type := Str "TEXT"; isPrimaryKey := false;
                          isForeignKey := false |} ]> ∅))).
Proof. vm_compute. reflexivity. Qed.

Lemma exportAll_catches_exportTable_rethrows_witness :
  snd (exportAllTablesAsCSV (world emptyAndT)) = Ok tt ∧
  saved (fst (exportAllTablesAsCSV (world emptyAndT)))
  = [(verbatimCSV tableT, "t.csv")] ∧
  (∃ later, console (fst (exportAllTablesAsCSV (world emptyAndT)))
            = (later ++ [(exportFailed (Str "e"),
                          Error "Table e is empty or does not exist." false)])%list) ∧
  snd (exportTableAsCSV 0 (world emptyAndT))
  = Throw (Error "Table e is empty or does not exist." false).
Proof.
  destruct (exportAll_catches_exportTable_rethrows (world emptyAndT))
    as (w1 & tableNames & w' & Hnames & Hall & _ & Hlog & Hrethrow).
  assert (getTableNames (world emptyAndT)
          = (worldWith emptyAndT [tableNamesQuery] [] [], Ok [Str "e"; Str "t"]))
    as Hlisted by reflexivity.
  rewrite Hlisted in Hnames. injection Hnames as <- <-.
  split; [by rewrite Hall|]. split; [reflexivity|]. split.
  - rewrite Hall.
    exact (Hlog 0%nat (Str "e")
             (worldWith emptyAndT ["SELECT * FROM e"; tableNamesQuery] [] [])
             (Error "Table e is empty or does not exist." false)
             eq_refl eq_refl).
  - by rewrite (Hrethrow 0%Z
                  (worldWith emptyAndT ["SELECT * FROM e"; tableNamesQuery] [] [])
                  (Error "Table e is empty or does not exist." false)
                  eq_refl).
Defined.

End OnScriptedDatabase.

(** ** The worker on the scripted [Sqlite] class *)

Section OnScriptedSqlite.
Import Js Worker Scripted.
#[local] Existing Instance engine.

Lemma uninitialized_accepts_only_init_witness :
  onmessage (Refresh "t" 10 0 tt tt) (handler None [])
  = (handler None [notInitialized], Ok tt) ∧
  onmessage Init (handler None [])
  = (handler (Some 0%nat) [initComplete 0%nat 0%nat Null], Ok tt).
Proof.
  split.
  - refine (proj1 (uninitialized_accepts_only_init _ (handler None []) eq_refl) _).
    discriminate.
  - refine (proj2 (uninitialized_accepts_only_init _ (handler None []) eq_refl)
              eq_refl 0%nat eq_refl).
Defined.

(** C1, as stated, fails on [openFile]: with no instance the handler answers
    it with the not-initialized error and stays without an instance, on
    bytes that [Sqlite.open] would accept. *)
Lemma openFile_before_init_is_rejected :
  Sqlite.open [1; 2; 3]%N = Ok 3%nat ∧
  onmessage (OpenFile [1; 2; 3]%N) (handler None [])
  = (handler None [queryError "Database is not initialized" false], Ok tt).
Proof. split; reflexivity. Qed.

Lemma exec_response_witness :
  onmessage (Exec "CREATE TABLE u (id)" "t" 10 0 tt tt) (handler (Some 0%nat) [])
  = (handler (Some 1%nat) [updateInstance 1%nat 1%nat], Ok tt) ∧
  onmessage (Exec "SELECT 1 AS n" "t" 10 0 tt tt) (handler (Some 0%nat) [])
  = (handler (Some 1%nat) [customQueryComplete oneRow], Ok tt) ∧
  onmessage (Exec "DELETE FROM t" "t" 10 0 tt tt) (handler (Some 0%nat) [])
  = (handler (Some 2%nat) [queryComplete pageRows 2], Ok tt).
Proof.
  split; [|split].
  - refine (proj1 (exec_response (handler (Some 0%nat) []) 0%nat 1%nat
                     "CREATE TABLE u (id)" _ _ _ _ _ [] true eq_refl eq_refl) eq_refl).
  - refine (proj1 (proj2 (exec_response (handler (Some 0%nat) []) 0%nat 1%nat
                            "SELECT 1 AS n" _ _ _ _ _ oneRow false eq_refl eq_refl))
              eq_refl _).
    discriminate.
  - refine (proj2 (proj2 (exec_response (handler (Some 0%nat) []) 0%nat 1%nat
                            "DELETE FROM t" _ _ _ _ _ [] false eq_refl eq_refl))
              eq_refl eq_refl 2%nat pageRows 2%float _).
    reflexivity.
Defined.

(** C2 at its failing inputs: an [exec] whose statement makes the engine
    throw a value that is not an [Error] is answered with no message at all,
    and so is an [init] whose [Sqlite.create] rejects (the rejection leaves
    the handler). *)
Theorem commands_without_response :
  onmessage (Exec "SELECT crash()" "t" 10 0 tt tt) (handler (Some 0%nat) [])
  = (handler (Some 1%nat) [], Ok tt) ∧
  @onmessage engineMissing (@Init engineMissing)
    (@Build_Store engineMissing None [] [])
  = (@Build_Store engineMissing None [] [],
     Throw (Error "failed to load the engine" false)).
Proof. split; reflexivity. Qed.

(** C4 at its failing input: the same thrown value, not an [Error], is
    reported as "Unknown error" when [refresh] meets it and is not reported
    when [exec] meets it. *)
Theorem non_error_failure_of_exec_unreported :
  Sqlite.getTableData 0%nat "crash" 10 0 tt tt = (1%nat, Throw (NonError (Str "boom"))) ∧
  responses (Refresh "crash" 10 0 tt tt) (handler (Some 0%nat) [])
  = [queryError "Unknown error" false] ∧
  Sqlite.exec 0%nat "SELECT crash()" = (1%nat, Throw (NonError (Str "boom"))) ∧
  responses (Exec "SELECT crash()" "t" 10 0 tt tt) (handler (Some 0%nat) []) = [].
Proof. repeat split; reflexivity. Qed.

(** An [Error] thrown by the statement of an [exec] is reported once, marked
    as a custom query error; thrown by [refresh], once and unmarked. *)
Example error_failures_reported :
  responses (Exec "SELEC" "t" 10 0 tt tt) (handler (Some 0%nat) [])
  = [queryError "syntax error" true] ∧
  responses (Refresh "nowhere" 10 0 tt tt) (handler (Some 0%nat) [])
  = [queryError "no such table: nowhere" false].
Proof. split; reflexivity. Qed.

End OnScriptedSqlite.

(** ** The remote load on the scripted network *)

Section OnScriptedNetwork.
Import Js App Scripted.
#[local] Existing Instance browser.

(** C8, as stated, fails on an HTTP failure: a direct fetch answered with
    [response.ok] false opens the retry dialog on the URL, exactly as a
    rejected fetch does. *)
Lemma http_failure_opens_retry_dialog :
  net_fetch tt missingUrl = (tt, Ok {| ok := false; blob := Ok tt |}) ∧
  fetchDatabase missingUrl false (page None false None false [])
  = (page None true (Some missingUrl) false [missingUrl], Ok tt).
Proof. split; reflexivity. Qed.

Lemma direct_failure_offers_one_proxy_retry_witness :
  fetchDatabase missingUrl false (page None false None false [])
  = (page None true (Some missingUrl) false [missingUrl], Ok tt) ∧
  ∃ s3, handleRetryWithProxy (page None true (Some missingUrl) false [missingUrl])
        = (s3, Ok tt) ∧
        requests s3 = [proxied missingUrl; missingUrl] ∧
        showDialog s3 = false ∧
        fetchError s3 = Some "Error whilefetching, Failed to fetch".
Proof.
  destruct (direct_failure_offers_one_proxy_retry missingUrl
              (page None false None false [])
              (page None false None true [missingUrl])
              (Error "URL not found or invalid" false))
    as (Hdirect & s3 & Hretry & Hreq & Hdlg & Hfail);
    [discriminate|reflexivity|].
  split; [exact Hdirect|].
  exists s3. repeat split; try done.
  exact (Hfail (page None true (Some missingUrl) true [proxied missingUrl; missingUrl])
               (Error "Failed to fetch" false) eq_refl).
Defined.

(** A file that is served loads directly: no dialog, no relay. *)
Example direct_load :
  fetchDatabase dbUrl false (page None false None false [])
  = (page None false None false [dbUrl], Ok tt).
Proof. reflexivity. Qed.

End OnScriptedNetwork.

(** * Further properties of src/lib/sqlite.ts *)

Section TextFacts.
Import Text.

Lemma append_assoc (s1 s2 s3 : string) : (s1 +:+ s2) +:+ s3 = s1 +:+ s2 +:+ s3.
Proof.
  induction s1 as [|c s1 IH]; [done|].
  change (String c ((s1 +:+ s2) +:+ s3) = String c (s1 +:+ s2 +:+ s3)).
  by f_equal.
Qed.

Lemma occurrences_append (c : ascii) (s1 s2 : string) :
  occurrences c (s1 +:+ s2) = occurrences c s1 + occurrences c s2.
Proof.
  induction s1 as [|c' s1 IH]; [done|].
  change (occurrences c (String c' (s1 +:+ s2))
          = occurrences c (String c' s1) + occurrences c s2).
  cbn [occurrences]. rewrite IH. lia.
Qed.

(** Joining strings adds the separator's occurrences once per gap. *)
Lemma occurrences_concat (c : ascii) (sep : string) (l : list string) :
  occurrences c (String.concat sep l)
  = sum_list_with (occurrences c) l + (length l - 1) * occurrences c sep.
Proof.
  induction l as [|s l IH]; [done|].
  destruct l as [|s' l]; [simpl; lia|].
  change (String.concat sep (s :: s' :: l))
    with (s +:+ sep +:+ String.concat sep (s' :: l)).
  rewrite !occurrences_append, IH. simpl. lia.
Qed.

Lemma sum_list_with_zero {A} (f : A → nat) (l : list A) :
  Forall (fun x => f x = 0) l → sum_list_with f l = 0.
Proof. induction 1 as [|x l Hx _ IH]; simpl; [done|]. by rewrite Hx, IH. Qed.

End TextFacts.

Section SqliteTsMoreFacts.
Import Js SqliteTs Text.

Section PureFacts.
Context `{NumberToString}.

(** X1: for any result set none of whose columns is named [__proto__],
    repeated column names or not, the row object of a value tuple has exactly
    the column names as keys, and binds each name to the tuple's cell at the
    last position that carries the name. *)
Theorem mapQueryResults_last_occurrence (r : QueryExecResult) (rest : list QueryExecResult)
    (n : nat) (row : list value) :
  "__proto__" ∉ columns r →
  values r !! n = Some row →
  ∃ obj : gmap string value,
    fst (mapQueryResults (r :: rest)) !! n = Some obj ∧
    (∀ k, is_Some (obj !! k) ↔ k ∈ columns r) ∧
    (∀ i k, columns r !! i = Some k → k ∉ drop (S i) (columns r) →
            obj !! k = Some (index row i)).
Proof.
  intros Hproto Hrow. exists (mapRow (columns r) row). split; [|split].
  - simpl. by rewrite list_lookup_fmap, Hrow.
  - intros k. unfold mapRow, reduce. split.
    + intros Hk. destruct (decide (k ∈ columns r)) as [|Hnot]; [done|].
      rewrite mapRow_from_notin, lookup_empty in Hk by done.
      by destruct Hk.
    + intros Hin.
      assert (∃ i, columns r !! i = Some k ∧ k ∉ drop (S i) (columns r))
        as (i & Hi & Hlast).
      { clear Hrow Hproto.
        induction (columns r) as [|c cols IH]; [by apply elem_of_nil in Hin|].
        destruct (decide (k ∈ cols)) as [Hlater|Hnot].
        - destruct (IH Hlater) as (i & Hi & Hlast). by exists (S i).
        - apply elem_of_cons in Hin as [->|?]; [|done].
          exists 0%nat. split; [done|]. by cbn. }
      rewrite (mapRow_from_last _ row 0 ∅ i k); [done| |done..].
      by eapply not_proto_of_notin.
  - intros i k Hi Hlast. unfold mapRow, reduce.
    rewrite (mapRow_from_last _ row 0 ∅ i k); [done| |done..].
    by eapply not_proto_of_notin.
Qed.

(** X2: the text of [arrayToCSV] does not determine the table: moving the
    three characters quote, comma, quote from the end of one cell's text
    into the next cell's gives the same text. *)
Theorem arrayToCSV_ambiguous (a b c : string) :
  let sep := dquote +:+ "," +:+ dquote in
  arrayToCSV ["x"; "y"] [ <[ "x" := Str (a +:+ sep +:+ b) ]> {[ "y" := Str c ]} ]
  = arrayToCSV ["x"; "y"] [ <[ "x" := Str a ]> {[ "y" := Str (b +:+ sep +:+ c) ]} ].
Proof.
  intros sep. unfold arrayToCSV, csvRow, csvField, prop. cbn [map].
  rewrite !lookup_insert_eq, !lookup_insert_ne, !lookup_singleton_eq by done.
  cbn [default to_string String.concat id].
  unfold sep. by rewrite !append_assoc.
Qed.

(** X3: when no column name and no cell's text holds a line feed, the text
    of [arrayToCSV] holds exactly one line feed per row: the header line,
    then one line for each row, with no line feed at the end. *)
Theorem arrayToCSV_line_feeds (cols : list string) (rows : list (gmap string value)) :
  Forall (fun col => occurrences lineFeed col = 0) cols →
  Forall (fun row =>
            Forall (fun col => occurrences lineFeed (to_string (prop row col)) = 0) cols)
         rows →
  occurrences lineFeed (arrayToCSV cols rows) = length rows.
Proof.
  intros Hcols Hrows. unfold arrayToCSV.
  rewrite occurrences_concat. cbn [length sum_list_with].
  assert (∀ l, Forall (fun s => occurrences lineFeed s = 0) l →
               occurrences lineFeed (String.concat "," l) = 0) as Hjoin.
  { intros l Hl. rewrite occurrences_concat, sum_list_with_zero by done.
    change (occurrences lineFeed ",") with 0. lia. }
  rewrite (Hjoin cols Hcols).
  rewrite sum_list_with_zero.
  - change (occurrences lineFeed newline) with 1. rewrite length_map. lia.
  - apply Forall_map. eapply Forall_impl; [exact Hrows|].
    intros row Hrow. unfold csvRow. apply Hjoin. apply Forall_map.
    eapply Forall_impl; [exact Hrow|].
    intros col Hcol. unfold csvField. cbn beta.
    rewrite !occurrences_append, Hcol. reflexivity.
Qed.

End PureFacts.

Context `{Host}.

(** X4: [getTableNames] never throws and runs exactly one statement: it
    returns the first field of each row of the first result set; with no
    result set it returns no name; when the statement throws it logs the
    failure and returns no name. *)
Theorem getTableNames_never_throws (w : World) :
  ∃ names w',
    getTableNames w = (w', Ok names) ∧
    executed w' = tableNamesQuery :: executed w ∧
    saved w' = saved w ∧
    match snd (db_exec (database w) tableNamesQuery) with
    | Ok (r :: _) =>
        names = map (fun row => index row 0) (values r) ∧ console w' = console w
    | Ok [] => names = [] ∧ console w' = console w
    | Throw e =>
        names = [] ∧ console w' = ("Failed to get table names:", e) :: console w
    end.
Proof.
  unfold getTableNames, try_catch, bind, exec.
  destruct (db_exec (database w) tableNamesQuery) as [d [[|r result]|e]];
    cbn; eauto 10.
Qed.

(** X5: whatever makes [getTableSchema] throw is logged once with
    [console.error] and thrown again unchanged, and it is one of three
    things: the [table_info] statement threw; it answered with no result set
    (the TypeError on [tableInfoResult[0]], the [foreign_key_list] statement
    then not being run); or the [foreign_key_list] statement threw. *)
Theorem getTableSchema_failure_logged_and_rethrown (w w' : World) (tableName : string)
    (e : thrown) :
  getTableSchema tableName w = (w', Throw e) →
  console w' =
    ("Failed to get schema for table " +:+ dquote +:+ tableName +:+ dquote +:+ ":", e)
      :: console w ∧
  saved w' = saved w ∧
  (snd (db_exec (database w) (tableInfoQuery tableName)) = Throw e ∧
   executed w' = tableInfoQuery tableName :: executed w
   ∨ snd (db_exec (database w) (tableInfoQuery tableName)) = Ok [] ∧
     e = TypeError_values ∧
     executed w' = tableInfoQuery tableName :: executed w
   ∨ ∃ d1 info rest,
       db_exec (database w) (tableInfoQuery tableName) = (d1, Ok (info :: rest)) ∧
       snd (db_exec d1 (foreignKeyListQuery tableName)) = Throw e ∧
       executed w' =
         foreignKeyListQuery tableName :: tableInfoQuery tableName :: executed w).
Proof.
  unfold getTableSchema, try_catch, bind, exec.
  destruct (db_exec (database w) (tableInfoQuery tableName)) as [d1 [[|info rest]|e1]];
    cbn.
  - intros [= <- <-]. cbn. split; [done|]. split; [done|]. right. by left.
  - destruct (db_exec d1 (foreignKeyListQuery tableName)) as [d2 [fk|e2]] eqn:Hfk; cbn.
    + discriminate.
    + intros [= <- <-]. cbn. split; [done|]. split; [done|].
      right. right. exists d1, info, rest. by rewrite Hfk.
  - intros [= <- <-]. cbn. split; [done|]. split; [done|]. by left.
Qed.

(** X6: for a table the database does not have - [PRAGMA table_info] answers
    with no result set - [getTableSchema] returns no empty schema: it throws
    the TypeError of reading [tableInfoResult[0]], logs it, and never runs
    the [foreign_key_list] statement. *)
Theorem getTableSchema_unknown_table (w : World) (tableName : string) d :
  db_exec (database w) (tableInfoQuery tableName) = (d, Ok []) →
  getTableSchema tableName w =
    ({| database := d;
        executed := tableInfoQuery tableName :: executed w;
        console :=
          ("Failed to get schema for table " +:+ dquote +:+ tableName +:+ dquote +:+ ":",
           TypeError_values) :: console w;
        saved := saved w |},
     Throw TypeError_values).
Proof.
  intros Hinfo. unfold getTableSchema, try_catch, bind, exec. by rewrite Hinfo.
Qed.

(** X7: on a table without rows, whose [SELECT] answers with no result set,
    [exportTableAsCSV] saves no file: it logs and throws the [Error] "Table
    <name> is empty or does not exist.". *)
Theorem exportTableAsCSV_empty_table (w w1 : World) (tableIndex : Z)
    (tableNames : list value) d :
  let tableName := nameAt tableNames tableIndex in
  let failure :=
    Error ("Table " +:+ to_string tableName +:+ " is empty or does not exist.") false in
  getTableNames w = (w1, Ok tableNames) →
  db_exec (database w1) (selectAll tableName) = (d, Ok []) →
  exportTableAsCSV tableIndex w =
    ({| database := d;
        executed := selectAll tableName :: executed w1;
        console := (exportFailed tableName, failure) :: console w1;
        saved := saved w1 |},
     Throw failure).
Proof.
  intros tableName failure Hnames Hexec.
  unfold exportTableAsCSV, bind. rewrite Hnames. fold tableName.
  unfold try_catch, exportBody, bind, exec. by rewrite Hexec.
Qed.

(** X8: with an index that is negative or past the last table name,
    [exportTableAsCSV] does not stop: the name it reads is [undefined], and
    the one statement it runs is [SELECT * FROM undefined]. *)
Theorem exportTableAsCSV_index_out_of_range (w w1 : World) (tableIndex : Z)
    (tableNames : list value) :
  getTableNames w = (w1, Ok tableNames) →
  (tableIndex < 0 ∨ Z.of_nat (length tableNames) ≤ tableIndex)%Z →
  executed (fst (exportTableAsCSV tableIndex w))
  = "SELECT * FROM undefined" :: executed w1.
Proof.
  intros Hnames Hrange.
  assert (nameAt tableNames tableIndex = Undefined) as Hname.
  { unfold nameAt. destruct (Z.leb_spec 0 tableIndex) as [Hpos|]; [|done].
    unfold index. rewrite lookup_ge_None_2; [done|]. lia. }
  unfold exportTableAsCSV, bind. rewrite Hnames, Hname.
  pose proof (exportBody_executed Undefined w1) as Hexe.
  unfold try_catch. destruct (exportBody Undefined w1) as [w2 [[]|e]]; done.
Qed.

(** One iteration of [exportAllTablesAsCSV] either saves one file, named
    after the table, or logs one failure. *)
Lemma exportAll_step_accounting (tableName : value) (w : World) :
  ∃ w', exportEach tableName w = (w', Ok tt) ∧
        ((∃ content, saved w' = (content, to_string tableName +:+ ".csv") :: saved w) ∧
         console w' = console w
         ∨ saved w' = saved w ∧
           ∃ e, console w' = (exportFailed tableName, e) :: console w).
Proof.
  unfold exportEach, try_catch, exportBody, bind, exec.
  destruct (db_exec (database w) (selectAll tableName)) as [d [result|e]]; cbn.
  - case_bool_decide; cbn.
    + eexists. split; [reflexivity|]. cbn. right. eauto.
    + destruct (mapQueryResults result) as [data cols]. unfold saveAs. cbn.
      destruct (saveAs_throws _ _) as [e|]; cbn.
      * eexists. split; [reflexivity|]. cbn. right. eauto.
      * eexists. split; [reflexivity|]. cbn. left. eauto.
  - eexists. split; [reflexivity|]. cbn. right. eauto.
Qed.

(** X9: [exportAllTablesAsCSV] accounts for every listed table: each one
    either adds one saved file or one logged failure, so the files saved and
    the failures logged add up to the number of table names; and every file
    it saves is named [<table>.csv] after a listed table. *)
Theorem exportAll_accounts_for_every_table (w : World) :
  ∃ w1 tableNames w' files,
    getTableNames w = (w1, Ok tableNames) ∧
    exportAllTablesAsCSV w = (w', Ok tt) ∧
    saved w' = (files ++ saved w1)%list ∧
    Forall (fun file => ∃ tableName, tableName ∈ tableNames ∧
                                     file.2 = to_string tableName +:+ ".csv") files ∧
    (length files + length (console w') = length tableNames + length (console w1))%nat.
Proof.
  destruct (getTableNames_total w) as (w1 & tableNames & Hnames).
  exists w1, tableNames.
  assert (∀ names w0, ∃ w' files,
            forEach exportEach names w0 = (w', Ok tt) ∧
            saved w' = (files ++ saved w0)%list ∧
            Forall (fun file => ∃ tableName, tableName ∈ names ∧
                                             file.2 = to_string tableName +:+ ".csv") files ∧
            (length files + length (console w') = length names + length (console w0))%nat)
    as Hloop.
  { induction names as [|name names IH]; intros w0.
    - exists w0, []. by repeat split.
    - destruct (exportAll_step_accounting name w0)
        as (w2 & Hstep & [[[content Hsaved] Hconsole]|[Hsaved [e Hconsole]]]);
        destruct (IH w2) as (w' & files & Hrun & Hfiles & Hnamed & Hcount).
      + exists w', (files ++ [(content, to_string name +:+ ".csv")])%list.
        cbn [forEach]. unfold bind. rewrite Hstep. split; [done|].
        rewrite Hfiles, Hsaved, <- app_assoc. split; [done|]. split.
        * apply Forall_app. split.
          -- eapply Forall_impl; [exact Hnamed|].
             intros file (t & Ht & Hfile). exists t. split; [by right|done].
          -- apply Forall_singleton. exists name. split; [by left|done].
        * rewrite length_app, Hconsole in *. cbn. lia.
      + exists w', files. cbn [forEach]. unfold bind. rewrite Hstep. split; [done|].
        rewrite Hfiles, Hsaved. split; [done|]. split.
        * eapply Forall_impl; [exact Hnamed|].
          intros file (t & Ht & Hfile). exists t. split; [by right|done].
        * rewrite Hconsole in Hcount. cbn in *. lia. }
  destruct (Hloop tableNames w1) as (w' & files & Hrun & Hfiles & Hnamed & Hcount).
  exists w', files. split; [done|]. split; [|done].
  unfold exportAllTablesAsCSV, bind. by rewrite Hnames.
Qed.

End SqliteTsMoreFacts.

(** * Further properties of the worker *)

Section WorkerMoreFacts.
Import Js Worker Protocol.
Context `{Sqlite.Methods}.

Lemma cons_neq {A} (x : A) (l : list A) : x :: l ≠ l.
Proof. intros Heq. apply (f_equal length) in Heq. simpl in Heq. lia. Qed.

Lemma onmessage_exec (query currentTable : string) (limit offset : float)
    (filters : Sqlite.Filters) (sorters : Sqlite.Sorters) (s : Store) (i : Sqlite.t) :
  instance s = Some i →
  onmessage (Exec query currentTable limit offset filters sorters) s
  = try_catch
      (try_catch (execTry query currentTable limit offset filters sorters) execCatch)
      onError s.
Proof. intros Hinst. unfold onmessage, bind, gets. by rewrite Hinst. Qed.

(** The [try] block of [exec] posts one message when it returns and none
    when it throws, and keeps an instance in place. *)
Lemma execTry_posted (query currentTable : string) (limit offset : float)
    (filters : Sqlite.Filters) (sorters : Sqlite.Sorters) (s : Store) (i : Sqlite.t) :
  instance s = Some i →
  let '(s', r) := execTry query currentTable limit offset filters sorters s in
  is_Some (instance s') ∧ warned s' = warned s ∧
  match r with
  | Ok _ => ∃ m, posted s' = m :: posted s
  | Throw _ => posted s' = posted s
  end.
Proof.
  destruct s as [current outbox warnings]. cbn. intros ->.
  unfold execTry. run_handler.
  destruct (Sqlite.exec i query) as [i1 [[results []]|e]]; cbn; eauto.
  destruct results as [|row results]; cbn; eauto.
  destruct (Sqlite.getTableData i1 _ _ _ _ _) as [i2 [[rows maxSize]|e]]; cbn; eauto.
Qed.

(** X11: on a handler with an instance, a command is left without any message
    exactly in three cases: an [init] whose [Sqlite.create] rejects, an
    [exec] in whose [try] block a value that is not an [Error] is thrown,
    and an action the [switch] does not know. *)
Theorem unanswered_iff (ev : WorkerEvent) (s : Store) (i : Sqlite.t) :
  instance s = Some i →
  posted (fst (onmessage ev s)) = posted s ↔ unanswered ev s.
Proof.
  intros Hinst.
  destruct (decide (plainCommand ev = true)) as [Hplain|Hother].
  - destruct (plain_command_answered_once ev s i Hinst Hplain) as (r & _ & ->).
    split; [by intros ?%cons_neq|]. by destruct ev.
  - destruct ev as [| ? | ? ? ? ? ? |query currentTable limit offset filters sorters
                   | ? ? ? ? ? | | ? ? ? ? | ? ? | ? ? ? | ? ? ? ? ? ? | ?];
      try (by destruct Hother); clear Hother.
    + (* init *)
      destruct s as [current outbox warnings]. run_handler. unfold unanswered.
      destruct Sqlite.create as [i'|e]; cbn.
      * split; [by intros ?%cons_neq|]. intros [? Hcreate]. discriminate Hcreate.
      * split; [by eexists|done].
    + (* exec *)
      pose proof (execTry_posted query currentTable limit offset filters sorters s i Hinst)
        as Hposted.
      rewrite (onmessage_exec _ _ _ _ _ _ s i Hinst).
      unfold try_catch, unanswered.
      destruct (execTry query currentTable limit offset filters sorters s)
        as [s' [[]|[message custom|v]]]; cbn in *.
      * destruct Hposted as (_ & _ & m & ->).
        split; [by intros ?%cons_neq|]. by intros (? & ? & [=]).
      * destruct Hposted as (_ & _ & ->).
        split; [by intros ?%cons_neq|]. by intros (? & ? & [=]).
      * destruct Hposted as (_ & _ & ->). split; [by eauto|done].
    + (* unknown action *)
      destruct s as [current outbox warnings]. cbn in Hinst. subst. by cbn.
Qed.

(** X12: once the handler has an instance it always has one: no command, and
    no failure of a command, takes it back to the state without instance. *)
Theorem ready_is_absorbing (ev : WorkerEvent) (s : Store) (i : Sqlite.t) :
  instance s = Some i →
  is_Some (instance (fst (onmessage ev s))).
Proof.
  intros Hinst.
  destruct ev as [| ? | ? ? ? ? ? |query currentTable limit offset filters sorters
                 | ? ? ? ? ? | | ? ? ? ? | ? ? | ? ? ? | ? ? ? ? ? ? | ?].
  4: { pose proof (execTry_posted query currentTable limit offset filters sorters s i Hinst)
         as Hposted.
       rewrite (onmessage_exec _ _ _ _ _ _ s i Hinst).
       unfold try_catch, execCatch, onError, postMessage, modify, throw, ret.
       destruct (execTry query currentTable limit offset filters sorters s)
         as [s' [[]|[message custom|v]]]; cbn in *; by destruct Hposted. }
  all: destruct s as [current outbox warnings]; cbn in Hinst; subst;
    run_handler; repeat (case_match; simplify_eq; cbn in * ); eauto.
Qed.

(** X13: [openFile] on a handler with an instance: when [Sqlite.open]
    resolves, its instance replaces the old one and [initComplete] carries
    its schemas and first table; when it rejects, the old instance stays in
    place and the failure is answered with one [queryError]. *)
Theorem openFile_replaces_or_keeps (file : list N) (s : Store) (i : Sqlite.t) :
  instance s = Some i →
  onmessage (OpenFile file) s =
    match Sqlite.open file with
    | Ok i' =>
        ({| instance := Some i';
            posted := initComplete (Sqlite.tablesSchema i') (Sqlite.indexesSchema i')
                        (Sqlite.firstTable i') :: posted s;
            warned := warned s |}, Ok tt)
    | Throw e =>
        ({| instance := Some i; posted := report e :: posted s; warned := warned s |},
         Ok tt)
    end.
Proof.
  destruct s as [current outbox warnings]. cbn. intros ->. run_handler.
  by destruct (Sqlite.open file) as [i'|[message custom|v]].
Qed.

(** X14: an [Error] thrown while an [exec] is handled is answered with its
    message and marked as a custom query error, whether the user's statement
    threw it or the read of the current table that follows a statement
    without rows. *)
Theorem exec_error_marked_custom (s : Store) (i i1 : Sqlite.t) (query currentTable : string)
    (limit offset : float) (filters : Sqlite.Filters) (sorters : Sqlite.Sorters)
    (message : string) (custom : bool) :
  instance s = Some i →
  (Sqlite.exec i query = (i1, Throw (Error message custom)) →
   onmessage (Exec query currentTable limit offset filters sorters) s =
     ({| instance := Some i1; posted := queryError message true :: posted s;
         warned := warned s |}, Ok tt)) ∧
  (Sqlite.exec i query = (i1, Ok ([], false)) →
   ∀ i2,
   Sqlite.getTableData i1 currentTable limit offset filters sorters
   = (i2, Throw (Error message custom)) →
   onmessage (Exec query currentTable limit offset filters sorters) s =
     ({| instance := Some i2; posted := queryError message true :: posted s;
         warned := warned s |}, Ok tt)).
Proof.
  destruct s as [current outbox warnings]. cbn. intros ->. split.
  - intros Hexec. run_handler. by rewrite Hexec.
  - intros Hexec i2 Hdata. run_handler. rewrite Hexec. cbn. by rewrite Hdata.
Qed.

End WorkerMoreFacts.

(** * Further properties of the remote load *)

Section RemoteLoadMoreFacts.
Import Js App AppView.
Context `{Browser}.

(** The catch and the finally blocks add no request to the attempt's. *)
Lemma fetchDatabase_requests (url : string) (useProxy : bool) (s : State) :
  requests (fst (fetchDatabase url useProxy s))
  = (if useProxy then proxied url else url) :: requests s.
Proof.
  pose proof (attempt_state url useProxy s) as (Hreq & _ & _).
  unfold fetchDatabase, try_finally, try_catch, onFetchFailure.
  destruct (attempt url useProxy s) as [s1 [[]|e]]; cbn in *; [done|].
  by destruct useProxy.
Qed.

(** X16: [fetchDatabase] never throws, whatever the network and the loader
    do: it hands exactly one URL to [fetch] (the relay's URL for the given
    one when [useProxy] is set, the given URL otherwise) and always ends
    with [isFetching] false. *)
Theorem fetchDatabase_settles (url : string) (useProxy : bool) (s : State) :
  ∃ s', fetchDatabase url useProxy s = (s', Ok tt) ∧
        isFetching s' = false ∧
        requests s' = (if useProxy then proxied url else url) :: requests s.
Proof.
  pose proof (fetchDatabase_requests url useProxy s) as Hreq. revert Hreq.
  unfold fetchDatabase, try_finally, try_catch, onFetchFailure.
  destruct (attempt url useProxy s) as [s1 [[]|e]]; cbn.
  - intros Hreq. eexists. split; [reflexivity|]. by cbn.
  - destruct useProxy; cbn; intros Hreq; eexists; (split; [reflexivity|]); by cbn.
Qed.

(** X17: a load that goes through - the response is ok, its body can be read
    and [loadDatabase] accepts it - clears the displayed error and leaves
    the dialog and the remembered URL as they were, directly or through the
    relay. *)
Theorem successful_load_clears_error (url : string) (useProxy : bool) (s : State)
    n1 n2 (response : FetchResponse Blob) (b : Blob) :
  net_fetch (net s) (if useProxy then proxied url else url) = (n1, Ok response) →
  ok response = true →
  blob response = Ok b →
  net_loadDatabase n1 b = (n2, Ok tt) →
  fetchDatabase url useProxy s =
    ({| net := n2; fetchError := None; showDialog := showDialog s;
        urlToFetch := urlToFetch s; isFetching := false;
        requests := (if useProxy then proxied url else url) :: requests s |},
     Ok tt).
Proof.
  intros Hfetch Hok Hblob Hload. run_app.
  rewrite Hfetch. cbn. rewrite Hok, Hblob. cbn. by rewrite Hload.
Qed.

(** X18: after a failed load through the relay, what [renderContent] shows
    (once nothing is loading) depends on whether a database is open: with
    none, the error "Error whilefetching, ..." with the failure's
    description; with one, the table or the empty-database message, and not
    the fetch error. *)
Theorem failed_proxy_load_view (url : string) (s s1 : State) (e : thrown)
    (db : bool) (tables : nat) :
  attempt url true s = (s1, Throw e) →
  renderContent false
    (isFetching (fst (fetchDatabase url true s)))
    (fetchError (fst (fetchDatabase url true s))) db tables
  = if db then
      if (0 <? tables)%nat then DBTable
      else ErrorMessage "Your database is empty, no tables found"
    else ErrorMessage ("Error whilefetching, " +:+ describe e).
Proof.
  intros Hattempt.
  unfold fetchDatabase, try_finally, try_catch. rewrite Hattempt.
  unfold onFetchFailure, setFetchError, modify, withIsFetching, renderContent. cbn.
  by destruct db.
Qed.

(** X19: after a failed direct load, with no error shown before and no
    database open, [renderContent] shows nothing: the failure itself is not
    displayed, only the dialog is opened. *)
Theorem failed_direct_load_view (url : string) (s s1 : State) (e : thrown) (tables : nat) :
  attempt url false s = (s1, Throw e) →
  fetchError s = None →
  showDialog (fst (fetchDatabase url false s)) = true ∧
  renderContent false
    (isFetching (fst (fetchDatabase url false s)))
    (fetchError (fst (fetchDatabase url false s))) false tables
  = Nothing.
Proof.
  intros Hattempt Hnone.
  pose proof (attempt_failure_keeps_error url false s s1 e Hattempt) as Herr.
  unfold fetchDatabase, try_finally, try_catch. rewrite Hattempt.
  unfold onFetchFailure. run_app. unfold renderContent. cbn.
  by rewrite Herr, Hnone.
Qed.

Section Effect.
Variable decodeURIComponent : string → outcome string.

(** The effect either leaves everything as it is, with the ref unset, or
    sets the ref after one request. *)
Lemma urlEffect_step (url : option string) (m : Mounted) :
  hasFetched m = false →
  let m' := fst (urlEffect decodeURIComponent url m) in
  (hasFetched m' = false ∧ requests (page m') = requests (page m))
  ∨ (hasFetched m' = true ∧ ∃ u, requests (page m') = u :: requests (page m)).
Proof.
  intros Hfresh. unfold urlEffect. rewrite Hfresh.
  destruct (truthy url) as [u|]; cbn; [|by left].
  destruct (decodeURIComponent u) as [decoded|e]; cbn; [|by left].
  pose proof (fetchDatabase_requests decoded false (page m)) as Hreq.
  destruct (fetchDatabase decoded false (page m)) as [s' r]. cbn in *.
  right. eauto.
Qed.

Lemma reruns_done (urls : list (option string)) (m : Mounted) :
  hasFetched m = true → reruns decodeURIComponent urls m = m.
Proof.
  revert m. induction urls as [|url urls IH]; intros m Hdone; [done|].
  cbn. unfold urlEffect. rewrite Hdone. by apply IH.
Qed.

(** X20: however often the effect runs again, and whatever URL parameter each
    run reads, at most one request is made in all: the first run that
    starts a load sets [hasFetched], and every later run returns at once. *)
Theorem urlEffect_fetches_at_most_once (urls : list (option string)) (m : Mounted) :
  hasFetched m = false →
  ∃ fetched,
    requests (page (reruns decodeURIComponent urls m))
    = (fetched ++ requests (page m))%list ∧
    (length fetched ≤ 1)%nat.
Proof.
  revert m. induction urls as [|url urls IH]; intros m Hfresh.
  - exists []. split; [done|cbn; lia].
  - pose proof (urlEffect_step url m Hfresh) as Hstep. cbn in Hstep. cbn [reruns].
    destruct (urlEffect decodeURIComponent url m) as [m' [[]|e]]; cbn in Hstep.
    + destruct Hstep as [[Hfresh' Hreq]|[Hdone [u Hreq]]].
      * destruct (IH m' Hfresh') as (fetched & Hall & Hlen).
        exists fetched. by rewrite Hall, Hreq.
      * rewrite reruns_done by done. exists [u]. rewrite Hreq. split; [done|cbn; lia].
    + destruct Hstep as [[_ Hreq]|[_ [u Hreq]]].
      * exists []. rewrite Hreq. split; [done|cbn; lia].
      * exists [u]. rewrite Hreq. split; [done|cbn; lia].
Qed.

End Effect.

End RemoteLoadMoreFacts.

(** * The further properties on the scripted collaborators *)

Section MoreOnScriptedDatabase.
Import Js SqliteTs Introspection Text Scripted ScriptedMore.
#[local] Existing Instance host.

(** C6 at its failing input, a table with a column named [__proto__]:
    [PRAGMA table_info] reports the columns [__proto__] and [b], both
    introspection statements answer, and the schema object that
    [getTableSchema] returns has the one entry [b]: the column [__proto__]
    is not among its keys. *)
Theorem getTableSchema_omits_proto_column :
  reportedColumns protoInfo = ["__proto__"; "b"] ∧
  getTableSchema "p" (world protoDatabase)
  = (worldWith protoDatabase [foreignKeyListQuery "p"; tableInfoQuery "p"] [] [],
     Ok {[ "b" := {| type := Str "TEXT"; isPrimaryKey := false;
                     isForeignKey := false |} ]}) ∧
  (∃ schema : gmap string ColumnInfo,
     snd (getTableSchema "p" (world protoDatabase)) = Ok schema ∧
     "__proto__" ∈ reportedColumns protoInfo ∧
     schema !! "__proto__" = None).
Proof.
  split; [reflexivity|]. split; [vm_compute; reflexivity|].
  eexists. split; [vm_compute; reflexivity|]. split; [by left|reflexivity].
Qed.

(** X23: on a result set with a column named [__proto__] (and a text cell
    under it), the row object of [mapQueryResults] has no key of that name:
    its one key is [b]; reading [__proto__] off it gives the prototype, not
    the cell; and [arrayToCSV] prints [[object Object]] in that column. *)
Theorem mapQueryResults_proto_column :
  mapQueryResults [protoColumn] = ([ {[ "b" := Str "y" ]} ], ["__proto__"; "b"]) ∧
  (∃ obj : gmap string value,
     fst (mapQueryResults [protoColumn]) !! 0%nat = Some obj ∧
     obj !! "__proto__" = None ∧
     prop obj "__proto__" = ObjectPrototype ∧
     prop obj "b" = Str "y") ∧
  arrayToCSV (snd (mapQueryResults [protoColumn])) (fst (mapQueryResults [protoColumn]))
  = "__proto__,b" +:+ newline
      +:+ dquote +:+ "[object Object]" +:+ dquote +:+ "," +:+ dquote +:+ "y" +:+ dquote.
Proof.
  split; [vm_compute; reflexivity|]. split; [|vm_compute; reflexivity].
  eexists. split; [reflexivity|]. by vm_compute.
Qed.

Lemma mapQueryResults_last_occurrence_witness :
  ∃ obj : gmap string value,
    fst (mapQueryResults [twoColumnsOneName]) !! 0%nat = Some obj ∧
    (∀ k, is_Some (obj !! k) ↔ k ∈ ["a"; "a"]) ∧
    (∀ i k, ["a"; "a"] !! i = Some k → k ∉ drop (S i) ["a"; "a"] →
            obj !! k = Some (index [Str "x"; Str "y"] i)).
Proof.
  refine (mapQueryResults_last_occurrence twoColumnsOneName [] 0
            [Str "x"; Str "y"] _ eq_refl).
  apply (bool_decide_unpack _). vm_compute. reflexivity.
Defined.

Lemma arrayToCSV_line_feeds_witness :
  occurrences lineFeed (arrayToCSV ["a"] [quotedRow; quotedRow]) = 2%nat.
Proof.
  apply (arrayToCSV_line_feeds ["a"] [quotedRow; quotedRow]).
  - by repeat constructor.
  - by repeat constructor.
Defined.

Lemma getTableSchema_failure_logged_and_rethrown_witness :
  console (fst (getTableSchema "nope" (world postsDatabase)))
  = [("Failed to get schema for table " +:+ dquote +:+ "nope" +:+ dquote +:+ ":",
      Error ("no such table: " +:+ tableInfoQuery "nope") false)].
Proof.
  exact (proj1 (getTableSchema_failure_logged_and_rethrown
                  (world postsDatabase)
                  (worldWith postsDatabase [tableInfoQuery "nope"]
                     [("Failed to get schema for table " +:+ dquote +:+ "nope" +:+ dquote
                         +:+ ":",
                       Error ("no such table: " +:+ tableInfoQuery "nope") false)] [])
                  "nope" (Error ("no such table: " +:+ tableInfoQuery "nope") false)
                  eq_refl)).
Defined.

Lemma getTableSchema_unknown_table_witness :
  getTableSchema "ghost" (world ghostless)
  = (worldWith ghostless [tableInfoQuery "ghost"]
       [("Failed to get schema for table " +:+ dquote +:+ "ghost" +:+ dquote +:+ ":",
         TypeError_values)] [],
     Throw TypeError_values).
Proof.
  exact (getTableSchema_unknown_table (world ghostless) "ghost" ghostless eq_refl).
Defined.

Lemma exportTableAsCSV_empty_table_witness :
  exportTableAsCSV 0 (world emptyAndT)
  = (worldWith emptyAndT ["SELECT * FROM e"; tableNamesQuery]
       [(exportFailed (Str "e"), Error "Table e is empty or does not exist." false)] [],
     Throw (Error "Table e is empty or does not exist." false)).
Proof.
  exact (exportTableAsCSV_empty_table (world emptyAndT)
           (worldWith emptyAndT [tableNamesQuery] [] []) 0 [Str "e"; Str "t"] emptyAndT
           eq_refl eq_refl).
Defined.

Lemma exportTableAsCSV_index_out_of_range_witness :
  executed (fst (exportTableAsCSV 5 (world oneTable)))
  = ["SELECT * FROM undefined"; tableNamesQuery].
Proof.
  apply (exportTableAsCSV_index_out_of_range (world oneTable)
           (worldWith oneTable [tableNamesQuery] [] []) 5 [Str "t"] eq_refl).
  right. cbn. lia.
Defined.

(** On a database that answers nothing, the table names cannot be read and
    nothing is exported. *)
Example exportAll_on_broken_database :
  exportAllTablesAsCSV (world broken)
  = (worldWith broken [tableNamesQuery]
       [("Failed to get table names:",
         Error ("no such table: " +:+ tableNamesQuery) false)] [],
     Ok tt).
Proof. reflexivity. Qed.

End MoreOnScriptedDatabase.

Section MoreOnScriptedSqlite.
Import Js Worker Protocol Scripted ScriptedMore.

Section OnEngine.
#[local] Existing Instance engine.

Lemma unanswered_iff_witness :
  posted (fst (onmessage (Exec "SELECT crash()" "t" 10 0 tt tt) (handler (Some 0%nat) [])))
  = [] ↔
  unanswered (Exec "SELECT crash()" "t" 10 0 tt tt) (handler (Some 0%nat) []).
Proof. exact (unanswered_iff _ (handler (Some 0%nat) []) 0%nat eq_refl). Defined.

Lemma ready_is_absorbing_witness :
  is_Some (instance (fst (onmessage (Exec "SELEC" "t" 10 0 tt tt) (handler (Some 0%nat) [])))).
Proof. exact (ready_is_absorbing _ (handler (Some 0%nat) []) 0%nat eq_refl). Defined.

Lemma exec_error_marked_custom_witness :
  onmessage (Exec "SELEC" "t" 10 0 tt tt) (handler (Some 0%nat) [])
  = (handler (Some 1%nat) [queryError "syntax error" true], Ok tt) ∧
  onmessage (Exec "DELETE FROM t" "nowhere" 10 0 tt tt) (handler (Some 0%nat) [])
  = (handler (Some 2%nat) [queryError "no such table: nowhere" true], Ok tt).
Proof.
  split.
  - refine (proj1 (exec_error_marked_custom (handler (Some 0%nat) []) 0%nat 1%nat
                     "SELEC" _ _ _ _ _ "syntax error" false eq_refl) eq_refl).
  - refine (proj2 (exec_error_marked_custom (handler (Some 0%nat) []) 0%nat 1%nat
                     "DELETE FROM t" _ _ _ _ _ "no such table: nowhere" false eq_refl)
              eq_refl 2%nat _).
    reflexivity.
Defined.

Lemma ready_failure_reported_witness :
  onmessage (Refresh "nowhere" 10 0 tt tt) (handler (Some 0%nat) [])
  = (handler (Some 1%nat) [queryError "no such table: nowhere" false], Ok tt).
Proof.
  refine (ready_failure_reported _ (handler (Some 0%nat) []) (handler (Some 1%nat) [])
            0%nat (Error "no such table: nowhere" false) eq_refl _ _).
  - discriminate.
  - reflexivity.
Defined.

End OnEngine.

Section OnPicky.
#[local] Existing Instance picky.

Lemma openFile_replaces_or_keeps_witness :
  onmessage (OpenFile []) (pickyHandler (Some 7%nat) [])
  = (pickyHandler (Some 7%nat) [queryError "file is not a database" false], Ok tt) ∧
  onmessage (OpenFile [1; 2]%N) (pickyHandler (Some 7%nat) [])
  = (pickyHandler (Some 2%nat) [initComplete 2%nat 2%nat Null], Ok tt).
Proof.
  split.
  - exact (openFile_replaces_or_keeps [] (pickyHandler (Some 7%nat) []) 7%nat eq_refl).
  - exact (openFile_replaces_or_keeps [1; 2]%N (pickyHandler (Some 7%nat) []) 7%nat
             eq_refl).
Defined.

End OnPicky.

End MoreOnScriptedSqlite.

Section MoreOnScriptedNetwork.
Import Js App AppView Scripted ScriptedMore.
#[local] Existing Instance browser.

Lemma successful_load_clears_error_witness :
  fetchDatabase dbUrl false (page (Some "Error whilefetching, Failed to fetch") false None false [])
  = (page None false None false [dbUrl], Ok tt).
Proof.
  exact (successful_load_clears_error dbUrl false
           (page (Some "Error whilefetching, Failed to fetch") false None false [])
           tt tt {| ok := true; blob := Ok tt |} tt eq_refl eq_refl eq_refl eq_refl).
Defined.

Lemma failed_proxy_load_view_witness :
  renderContent false
    (isFetching (fst (fetchDatabase missingUrl true (page None false None false []))))
    (fetchError (fst (fetchDatabase missingUrl true (page None false None false []))))
    false 0
  = ErrorMessage "Error whilefetching, Failed to fetch".
Proof.
  exact (failed_proxy_load_view missingUrl (page None false None false [])
           (page None false None true [proxied missingUrl])
           (Error "Failed to fetch" false) false 0 eq_refl).
Defined.

Lemma failed_direct_load_view_witness :
  showDialog (fst (fetchDatabase missingUrl false (page None false None false []))) = true ∧
  renderContent false
    (isFetching (fst (fetchDatabase missingUrl false (page None false None false []))))
    (fetchError (fst (fetchDatabase missingUrl false (page None false None false []))))
    false 0
  = Nothing.
Proof.
  exact (failed_direct_load_view missingUrl (page None false None false [])
           (page None false None true [missingUrl])
           (Error "URL not found or invalid" false) 0 eq_refl eq_refl).
Defined.

Lemma urlEffect_fetches_at_most_once_witness :
  ∃ fetched,
    requests (AppView.page
                (reruns Ok [None; Some dbUrl; Some missingUrl; Some dbUrl]
                   (mounted (page None false None false []) false)))
    = (fetched ++ [])%list ∧
    (length fetched ≤ 1)%nat.
Proof.
  exact (urlEffect_fetches_at_most_once Ok [None; Some dbUrl; Some missingUrl; Some dbUrl]
           (mounted (page None false None false []) false) eq_refl).
Defined.

(** The run that starts the load is the first one that reads a URL. *)
Example urlEffect_first_url :
  requests (AppView.page
              (reruns Ok [None; Some dbUrl; Some missingUrl; Some dbUrl]
                 (mounted (page None false None false []) false)))
  = [dbUrl].
Proof. reflexivity. Qed.

End MoreOnScriptedNetwork.
